(** * The SPDX 3.0 document model of [document.py]

    A shallow embedding of the Python module [src/document.py]: the class
    table, the object heap, the argument binding of calls, the [__init__]
    bodies and the two methods of [Hash]; followed by the properties of the
    model that the specification states. *)

From Stdlib Require Import ZArith Floats.SpecFloat.
From stdpp Require Import base decidable option list strings gmap fin_maps.

Local Open Scope string_scope.
Local Open Scope list_scope.
Local Open Scope Z_scope.

(** ** Classes of the module *)

(** The thirteen [class] statements of the file, in source order. *)
Inductive ClassName :=
  | cIntegrityMethod | cHash | cExternalReference | cSpdxDocumentReference
  | cSpdxElement | cRelationshipType | cRelationship | cIdentity
  | cSpdxDocument | cArtifact | cPackage | cFile | cSnippet.

#[global] Instance ClassName_eq_dec : EqDecision ClassName.
Proof. solve_decision. Defined.

(** What a class statement names between its parentheses. *)
Inductive base :=
  | b_object            (* no base given *)
  | b_ABC               (* abc.ABC *)
  | b_Enum              (* enum.Enum *)
  | b_class (c : ClassName).

Definition class_base (c : ClassName) : base :=
  match c with
  | cIntegrityMethod => b_ABC
  | cHash => b_class cIntegrityMethod
  | cExternalReference => b_object
  | cSpdxDocumentReference => b_object
  | cSpdxElement => b_object
  | cRelationshipType => b_Enum
  | cRelationship => b_class cSpdxElement
  | cIdentity => b_class cSpdxElement
  | cSpdxDocument => b_class cSpdxElement
  | cArtifact => b_class cSpdxElement
  | cPackage => b_class cArtifact
  | cFile => b_class cArtifact
  | cSnippet => b_class cArtifact
  end.

(** A [def] in a class body is decorated with [@abstractmethod] or not. *)
Inductive method_kind := Abstract | Concrete.

#[global] Instance method_kind_eq_dec : EqDecision method_kind.
Proof. solve_decision. Defined.

(** The [def]s of each class body. *)
Definition class_namespace (c : ClassName) : list (string * method_kind) :=
  match c with
  | cIntegrityMethod => [("generate", Abstract); ("verify", Abstract)]
  | cHash => [("__init__", Concrete); ("generate", Concrete); ("verify", Concrete)]
  | cRelationshipType => []
  | _ => [("__init__", Concrete)]
  end.

(** The method resolution order, without [object], [ABC] and [Enum]: the
    class, then the chain of its bases.  Inheritance is single throughout
    the file, and no chain is longer than three classes. *)
Fixpoint mro_upto (fuel : nat) (c : ClassName) : list ClassName :=
  match fuel with
  | O => []
  | S fuel' =>
      c :: match class_base c with
           | b_class p => mro_upto fuel' p
           | _ => []
           end
  end.

Definition mro (c : ClassName) : list ClassName := mro_upto 13 c.

(** The root of a chain decides the metaclass: [ABC] brings [ABCMeta],
    [Enum] brings [EnumMeta], everything else is a plain [type]. *)
Inductive metaclass := mc_type | mc_ABCMeta | mc_EnumMeta.

Definition metaclass_of (c : ClassName) : metaclass :=
  match class_base (List.last (mro c) c) with
  | b_ABC => mc_ABCMeta
  | b_Enum => mc_EnumMeta
  | _ => mc_type
  end.

(** Attribute lookup on a class: the first namespace of the MRO that has
    the name. *)
Definition assoc {A} (k : string) (l : list (string * A)) : option A :=
  snd <$> List.find (λ p, String.eqb (fst p) k) l.

Fixpoint resolve_in (cs : list ClassName) (name : string)
  : option (ClassName * method_kind) :=
  match cs with
  | [] => None
  | c :: cs' =>
      match assoc name (class_namespace c) with
      | Some k => Some (c, k)
      | None => resolve_in cs' name
      end
  end.

Definition resolve (c : ClassName) (name : string)
  : option (ClassName * method_kind) :=
  resolve_in (mro c) name.

(** [ABCMeta.__new__] computes [__abstractmethods__]: the names of the
    MRO's namespaces that still resolve to an abstract function. *)
Definition abstractmethods (c : ClassName) : list string :=
  List.filter
    (λ n, match resolve c n with Some (_, Abstract) => true | _ => false end)
    (remove_dups (List.concat (List.map (λ k, (class_namespace k).*1) (mro c)))).

(** ** The enumeration *)

Inductive RelationshipType :=
  | DESCRIBES
  | DESCRIBED_BY
  | CONTAINS
  | CONTAINED_BY
  | DEPENDS_ON
  | DEPENDENCY_OF
  | DEPENDENCY_MANIFEST_OF
  | BUILD_DEPENDENCY_OF
  | DEV_DEPENDENCY_OF
  | OPTIONAL_DEPENDENCY_OF
  | PROVIDED_DEPENDENCY_OF
  | TEST_DEPENDENCY_OF
  | RUNTIME_DEPENDENCY_OF
  | EXAMPLE_OF
  | GENERATES
  | GENERATED_FROM.

#[global] Instance RelationshipType_eq_dec : EqDecision RelationshipType.
Proof. solve_decision. Defined.

(** The body of the class: each member with its name, in the order of the
    assignments. *)
Definition RelationshipType_body : list (string * RelationshipType) :=
  [ ("DESCRIBES", DESCRIBES);
    ("DESCRIBED_BY", DESCRIBED_BY);
    ("CONTAINS", CONTAINS);
    ("CONTAINED_BY", CONTAINED_BY);
    ("DEPENDS_ON", DEPENDS_ON);
    ("DEPENDENCY_OF", DEPENDENCY_OF);
    ("DEPENDENCY_MANIFEST_OF", DEPENDENCY_MANIFEST_OF);
    ("BUILD_DEPENDENCY_OF", BUILD_DEPENDENCY_OF);
    ("DEV_DEPENDENCY_OF", DEV_DEPENDENCY_OF);
    ("OPTIONAL_DEPENDENCY_OF", OPTIONAL_DEPENDENCY_OF);
    ("PROVIDED_DEPENDENCY_OF", PROVIDED_DEPENDENCY_OF);
    ("TEST_DEPENDENCY_OF", TEST_DEPENDENCY_OF);
    ("RUNTIME_DEPENDENCY_OF", RUNTIME_DEPENDENCY_OF);
    ("EXAMPLE_OF", EXAMPLE_OF);
    ("GENERATES", GENERATES);
    ("GENERATED_FROM", GENERATED_FROM) ].

(** [auto()]: [Enum._generate_next_value_] answers the last value given
    plus one, and 1 for the first member. *)
Definition generate_next_value (last_values : list Z) : Z :=
  match List.rev last_values with
  | [] => 1
  | v :: _ => v + 1
  end.

Fixpoint auto_values {A} (last_values : list Z) (body : list (string * A))
  : list (string * A * Z) :=
  match body with
  | [] => []
  | (n, m) :: body' =>
      let v := generate_next_value last_values in
      (n, m, v) :: auto_values (last_values ++ [v]) body'
  end.

(** The members of the finished class: name, member, value. *)
Definition RelationshipType_members : list (string * RelationshipType * Z) :=
  auto_values [] RelationshipType_body.

Definition member_name (m : RelationshipType) : string :=
  default "" ((λ t, fst (fst t)) <$>
    List.find (λ t, bool_decide (snd (fst t) = m)) RelationshipType_members).

Definition member_value (m : RelationshipType) : Z :=
  default 0 (snd <$>
    List.find (λ t, bool_decide (snd (fst t) = m)) RelationshipType_members).

(** ** Values and the heap *)

(** Lists and instances live in the heap and are known by their address;
    the other values are immutable and carried as they are. *)
Abbreviation loc := nat.

Inductive value :=
  | VNone
  | VStr (s : string)
  | VInt (n : Z)
  | VFloat (f : spec_float)
  | VClass (c : ClassName)            (* a class object, e.g. [Identity] *)
  | VMember (m : RelationshipType)    (* a member of the enumeration *)
  | VRef (l : loc).                   (* a list or an instance *)

#[global] Instance spec_float_eq_dec : EqDecision spec_float.
Proof. solve_decision. Defined.

#[global] Instance value_eq_dec : EqDecision value.
Proof. solve_decision. Defined.

#[global] Instance value_inhabited : Inhabited value := populate VNone.

Inductive object :=
  | OList (items : list value)
  | OInstance (cls : ClassName) (dict : gmap string value).

(** The heap only grows: an address is an index into it. *)
Abbreviation heap := (list object).

(** The literal [3.0] as a binary64 number: 3 * 2^51 * 2^-51. *)
Definition float_3_0 : spec_float := S754_finite false 6755399441055744 (-51).

Inductive exn := TypeError | ValueError | KeyError | AttributeError.

(** ** Statements: a computation reads and writes the heap and may raise *)

Definition M (A : Type) : Type := heap → (exn + A) * heap.

#[global] Instance M_ret : MRet M := λ A a h, (inr a, h).

#[global] Instance M_bind : MBind M := λ A B f m h,
  match m h with
  | (inr a, h') => f a h'
  | (inl e, h') => (inl e, h')
  end.

Definition raise {A} (e : exn) : M A := λ h, (inl e, h).

Definition lift {A} (r : exn + A) : M A := λ h, (r, h).

Definition alloc (o : object) : M loc := λ h, (inr (length h), h ++ [o]).

(** [self.name = v] *)
Definition setattr (self : loc) (name : string) (v : value) : M unit := λ h,
  match h !! self with
  | Some (OInstance c d) =>
      (inr (), <[self := OInstance c (<[name := v]> d)]> h)
  | _ => (inl AttributeError, h)
  end.

(** [o.name], for the attributes kept in the instance's dictionary. *)
Definition getattr (o : value) (name : string) : M value := λ h,
  match o with
  | VRef l =>
      match h !! l with
      | Some (OInstance _ d) =>
          match d !! name with
          | Some v => (inr v, h)
          | None => (inl AttributeError, h)
          end
      | _ => (inl AttributeError, h)
      end
  | _ => (inl AttributeError, h)
  end.

(** The characters of a string, each a string of length one. *)
Fixpoint characters (s : string) : list value :=
  match s with
  | EmptyString => []
  | String a s' => VStr (String a EmptyString) :: characters s'
  end.

(** [list(o)]: the items of a list object, the characters of a string,
    the members of the enumeration in the order of their definition.
    Nothing else among the values of the model can be iterated: numbers,
    None, the other classes, members and instances raise TypeError. *)
Definition items_of (o : value) : M (list value) := λ h,
  match o with
  | VRef l =>
      match h !! l with
      | Some (OList vs) => (inr vs, h)
      | _ => (inl TypeError, h)
      end
  | VStr s =>
      (inr (characters s), h)
  | VClass cRelationshipType =>
      (inr ((λ t, VMember (snd (fst t))) <$> RelationshipType_members), h)
  | _ => (inl TypeError, h)
  end.

(** [type(o)], for instances. *)
Definition class_of (h : heap) (o : value) : option ClassName :=
  match o with
  | VRef l =>
      match h !! l with
      | Some (OInstance c _) => Some c
      | _ => None
      end
  | _ => None
  end.

(** ** Calls: binding arguments to parameters *)

(** Every parameter of the file has a default, so a signature is a list of
    names with their defaults.  A call gives positional values and keyword
    values; a keyword cannot occur twice in a call, hence the map. *)
Abbreviation signature := (list (string * value)).

Definition bind_one (pos : list value) (kw : gmap string value)
    (i : nat) (p : string * value) : string * value :=
  (p.1, match pos !! i with
        | Some v => v
        | None => default p.2 (kw !! p.1)
        end).

(** Python raises [TypeError] for too many positional arguments, for a
    keyword that is no parameter, and for a parameter given twice. *)
Definition bind_args (ps : signature) (pos : list value)
    (kw : gmap string value) : exn + gmap string value :=
  if decide (length ps < length pos)%nat then inl TypeError
  else if decide (dom kw ⊆ list_to_set ps.*1) then
    if decide (Forall (λ n, kw !! n = None) (take (length pos) ps.*1)) then
      inr (list_to_map (imap (bind_one pos kw) ps))
    else inl TypeError
  else inl TypeError.

(** Reading a local variable of a function body. *)
Definition arg (a : gmap string value) (n : string) : value :=
  default VNone (a !! n).

(** ** Executing the module *)

(** A default is evaluated once, when its [def] is executed.  Strings,
    numbers and class objects have no identity to speak of; the six list
    displays of the file each allocate one list, kept by the function. *)
Record defaults := {
  SpdxDocument_external_document_references : loc;
  SpdxDocument_profiles : loc;
  Artifact_external_references : loc;
  Package_external_references : loc;
  File_external_references : loc;
  Snippet_external_references : loc
}.

(** The class statements in source order; only the list displays in the
    signatures touch the heap. *)
Definition exec_module : M defaults :=
  d1 ← alloc (OList [VClass cSpdxDocumentReference]);
  d2 ← alloc (OList []);
  d3 ← alloc (OList [VClass cExternalReference]);
  d4 ← alloc (OList [VClass cExternalReference]);
  d5 ← alloc (OList [VClass cExternalReference]);
  d6 ← alloc (OList [VClass cExternalReference]);
  mret {| SpdxDocument_external_document_references := d1;
          SpdxDocument_profiles := d2;
          Artifact_external_references := d3;
          Package_external_references := d4;
          File_external_references := d5;
          Snippet_external_references := d6 |}.

(** Python's [==] between a value and an [int], as the enumeration's
    value lookup uses it (a [float] equal to the integer finds it too). *)
Definition eq_int (v : value) (z : Z) : bool :=
  match v with
  | VInt n => Z.eqb n z
  | VFloat f => SFeqb f (binary_normalize 53 1024 z 0 false)
  | _ => false
  end.

(** [RelationshipType(v)]: a member is answered as it is, a value is
    looked up among the members' values. *)
Definition RelationshipType_by_value (v : value) : exn + RelationshipType :=
  match v with
  | VMember m => inr m
  | _ =>
      match List.find (λ t, eq_int v (snd t)) RelationshipType_members with
      | Some t => inr (snd (fst t))
      | None => inl ValueError
      end
  end.

(** [RelationshipType(...)] goes through [EnumMeta.__call__], whose
    signature (CPython 3.11) is
    [(cls, value, names=None, *, module=None, qualname=None, type=None,
      start=1, boundary=None)]: [value] is required, and only [value] and
    [names] can be given by position. *)
Definition EnumMeta_call_params : signature :=
  [("value", VNone); ("names", VNone); ("module", VNone);
   ("qualname", VNone); ("type", VNone); ("start", VInt 1);
   ("boundary", VNone)].

(** With [names] left at None the call looks the value up.  With [names]
    given it is the functional API, which sets out to create a subclass:
    the check of the bases for members finds the members of
    RelationshipType and raises TypeError, unless [type] is given and is
    no class, in which case reading its MRO raises AttributeError first. *)
Definition RelationshipType_call (pos : list value)
    (kw : gmap string value) : exn + value :=
  if decide (2 < length pos)%nat then inl TypeError
  else
    match bind_args EnumMeta_call_params pos kw with
    | inl e => inl e
    | inr a =>
        if decide (pos = [] ∧ kw !! "value" = None) then inl TypeError
        else
          match arg a "names" with
          | VNone =>
              sum_map id VMember (RelationshipType_by_value (arg a "value"))
          | _ =>
              match arg a "type" with
              | VNone | VClass _ => inl TypeError
              | _ => inl AttributeError
              end
          end
    end.

(** [RelationshipType[name]] *)
Definition RelationshipType_by_name (n : string) : exn + RelationshipType :=
  match List.find (λ t, String.eqb (fst (fst t)) n) RelationshipType_members with
  | Some t => inr (snd (fst t))
  | None => inl KeyError
  end.

Section Module_document.

Variable G : defaults.

(** *** Signatures (without [self]) *)

Definition Hash_params : signature :=
  [("algo", VStr ""); ("value", VStr "")].

Definition ExternalReference_params : signature :=
  [("category", VStr ""); ("reftype", VStr ""); ("locator", VStr "");
   ("comment", VStr "")].

Definition SpdxDocumentReference_params : signature :=
  [("document_ref", VStr ""); ("locator", VStr "");
   ("verification", VClass cIntegrityMethod)].

Definition SpdxElement_params : signature :=
  [("name", VStr ""); ("summary", VStr ""); ("description", VStr "");
   ("comment", VStr ""); ("verification", VClass cIntegrityMethod)].

Definition Relationship_params : signature :=
  [("name", VStr ""); ("summary", VStr ""); ("description", VStr "");
   ("comment", VStr ""); ("verification", VClass cIntegrityMethod);
   ("relationship_type", VClass cRelationshipType);
   ("from_element", VClass cSpdxElement);
   ("to_element", VClass cSpdxElement)].

Definition Identity_params : signature :=
  [("name", VStr ""); ("summary", VStr ""); ("description", VStr "");
   ("comment", VStr ""); ("verification", VClass cIntegrityMethod);
   ("email", VStr "")].

Definition SpdxDocument_params : signature :=
  [("name", VStr ""); ("summary", VStr ""); ("description", VStr "");
   ("comment", VStr ""); ("verification", VClass cIntegrityMethod);
   ("namespace", VStr ""); ("created", VStr "");
   ("creator", VClass cIdentity);
   ("external_document_references",
      VRef (SpdxDocument_external_document_references G));
   ("profiles", VRef (SpdxDocument_profiles G))].

Definition Artifact_params : signature :=
  [("name", VStr ""); ("summary", VStr ""); ("description", VStr "");
   ("comment", VStr ""); ("verification", VClass cIntegrityMethod);
   ("artifact_url", VStr ""); ("supplier", VClass cIdentity);
   ("originator", VClass cIdentity);
   ("external_references", VRef (Artifact_external_references G))].

Definition Package_params : signature :=
  [("name", VStr ""); ("summary", VStr ""); ("description", VStr "");
   ("comment", VStr ""); ("verification", VClass cIntegrityMethod);
   ("artifact_url", VStr ""); ("supplier", VClass cIdentity);
   ("originator", VClass cIdentity);
   ("external_references", VRef (Package_external_references G));
   ("version", VStr "")].

Definition File_params : signature :=
  [("name", VStr ""); ("summary", VStr ""); ("description", VStr "");
   ("comment", VStr ""); ("verification", VClass cIntegrityMethod);
   ("artifact_url", VStr ""); ("supplier", VClass cIdentity);
   ("originator", VClass cIdentity);
   ("external_references", VRef (File_external_references G));
   ("file_type", VStr "")].

Definition Snippet_params : signature :=
  [("name", VStr ""); ("summary", VStr ""); ("description", VStr "");
   ("comment", VStr ""); ("verification", VClass cIntegrityMethod);
   ("artifact_url", VStr ""); ("supplier", VClass cIdentity);
   ("originator", VClass cIdentity);
   ("external_references", VRef (Snippet_external_references G));
   ("byte_range", VInt 0); ("line_range", VInt 0)].

(** *** Function bodies *)

(** A method takes [self], the positional and the keyword arguments. *)
Definition method : Type := loc → list value → gmap string value → M value.

Definition Hash__init__ : method := λ self pos kw,
  a ← lift (bind_args Hash_params pos kw);
  setattr self "HashAlgorithm" (arg a "algo");;
  setattr self "Value" (arg a "value");;
  mret VNone.

Definition Hash_generate : method := λ self pos kw,
  _ ← lift (bind_args [] pos kw);
  mret (VStr "").

Definition Hash_verify : method := λ self pos kw,
  a ← lift (bind_args [("value", VStr "")] pos kw);
  mret (arg a "value").

(** The two abstract functions: [**kwargs] takes any keyword but
    [self], which the call has bound already, and no positional argument;
    the body is [pass]. *)
Definition IntegrityMethod_generate : method := λ self pos kw,
  match pos with
  | [] => if decide (is_Some (kw !! "self")) then raise TypeError
          else mret VNone
  | _ => raise TypeError
  end.

Definition IntegrityMethod_verify : method := λ self pos kw,
  match pos with
  | [] => if decide (is_Some (kw !! "self")) then raise TypeError
          else mret VNone
  | _ => raise TypeError
  end.

Definition ExternalReference__init__ : method := λ self pos kw,
  a ← lift (bind_args ExternalReference_params pos kw);
  setattr self "Category" (arg a "category");;
  setattr self "Type" (arg a "reftype");;
  setattr self "Locator" (arg a "locator");;
  setattr self "Comment" (arg a "comment");;
  mret VNone.

Definition SpdxDocumentReference__init__ : method := λ self pos kw,
  a ← lift (bind_args SpdxDocumentReference_params pos kw);
  setattr self "DocumentRef" (arg a "document_ref");;
  setattr self "Locator" (arg a "locator");;
  setattr self "VerifiedWith" (arg a "verification");;
  mret VNone.

Definition SpdxElement__init__ : method := λ self pos kw,
  a ← lift (bind_args SpdxElement_params pos kw);
  setattr self "SPDXID" (VStr "");;
  setattr self "Name" (arg a "name");;
  setattr self "Summary" (arg a "summary");;
  setattr self "Description" (arg a "description");;
  setattr self "Comment" (arg a "comment");;
  setattr self "VerifiedWith" (arg a "verification");;
  mret VNone.

(** [super().__init__(...)] in a class whose base is [SpdxElement]. *)
Definition super_SpdxElement__init__ (self : loc) (a : gmap string value)
  : M value :=
  SpdxElement__init__ self
    [arg a "name"; arg a "summary"; arg a "description"; arg a "comment";
     arg a "verification"] ∅.

Definition Relationship__init__ : method := λ self pos kw,
  a ← lift (bind_args Relationship_params pos kw);
  super_SpdxElement__init__ self a;;
  setattr self "RelationshipType" (arg a "relationship_type");;
  setattr self "From" (arg a "from_element");;
  setattr self "To" (arg a "to_element");;
  setattr self "VerfiedWith" (arg a "verification");;
  mret VNone.

Definition Identity__init__ : method := λ self pos kw,
  a ← lift (bind_args Identity_params pos kw);
  super_SpdxElement__init__ self a;;
  setattr self "Email" (arg a "email");;
  mret VNone.

Definition SpdxDocument__init__ : method := λ self pos kw,
  a ← lift (bind_args SpdxDocument_params pos kw);
  super_SpdxElement__init__ self a;;
  setattr self "SPDXVersion" (VFloat float_3_0);;
  setattr self "DataLicense" (VFloat float_3_0);;
  setattr self "Namespace" (arg a "namespace");;
  setattr self "Created" (arg a "created");;
  setattr self "Creator" (arg a "creator");;
  setattr self "ExternalDocumentReferences"
    (arg a "external_document_references");;
  setattr self "Profiles" (arg a "profiles");;
  mret VNone.

Definition Artifact__init__ : method := λ self pos kw,
  a ← lift (bind_args Artifact_params pos kw);
  super_SpdxElement__init__ self a;;
  setattr self "ArtifactUrl" (arg a "artifact_url");;
  setattr self "Supplier" (arg a "supplier");;
  setattr self "Originator" (arg a "originator");;
  setattr self "ExternalReferences" (arg a "external_references");;
  mret VNone.

(** [super().__init__(...)] in a class whose base is [Artifact]. *)
Definition super_Artifact__init__ (self : loc) (a : gmap string value)
  : M value :=
  Artifact__init__ self
    [arg a "name"; arg a "summary"; arg a "description"; arg a "comment";
     arg a "verification"; arg a "artifact_url"; arg a "supplier";
     arg a "originator"; arg a "external_references"] ∅.

Definition Package__init__ : method := λ self pos kw,
  a ← lift (bind_args Package_params pos kw);
  super_Artifact__init__ self a;;
  setattr self "Version" (arg a "version");;
  mret VNone.

Definition File__init__ : method := λ self pos kw,
  a ← lift (bind_args File_params pos kw);
  super_Artifact__init__ self a;;
  setattr self "FileType" (arg a "file_type");;
  mret VNone.

Definition Snippet__init__ : method := λ self pos kw,
  a ← lift (bind_args Snippet_params pos kw);
  super_Artifact__init__ self a;;
  setattr self "ByteRange" (arg a "byte_range");;
  setattr self "LineRange" (arg a "line_range");;
  mret VNone.

(** *** Dispatch *)

(** The function a class body binds to a name. *)
Definition function_of (c : ClassName) (name : string) : option method :=
  match c with
  | cIntegrityMethod =>
      if String.eqb name "generate" then Some IntegrityMethod_generate
      else if String.eqb name "verify" then Some IntegrityMethod_verify
      else None
  | cHash =>
      if String.eqb name "__init__" then Some Hash__init__
      else if String.eqb name "generate" then Some Hash_generate
      else if String.eqb name "verify" then Some Hash_verify
      else None
  | cRelationshipType => None
  | _ =>
      if String.eqb name "__init__" then
        match c with
        | cExternalReference => Some ExternalReference__init__
        | cSpdxDocumentReference => Some SpdxDocumentReference__init__
        | cSpdxElement => Some SpdxElement__init__
        | cRelationship => Some Relationship__init__
        | cIdentity => Some Identity__init__
        | cSpdxDocument => Some SpdxDocument__init__
        | cArtifact => Some Artifact__init__
        | cPackage => Some Package__init__
        | cFile => Some File__init__
        | cSnippet => Some Snippet__init__
        | _ => None
        end
      else None
  end.

(** [C(...)] for a class [C] of the module.

    - An enumeration is not instantiated: the call looks a member up or,
      in its functional form, is refused ([RelationshipType_call]).
    - [object.__new__] refuses a class with abstract methods left, and
      refuses arguments when the class has no [__init__] of its own.
    - Otherwise the instance is allocated with an empty dictionary and
      handed to [__init__]. *)
Definition construct (c : ClassName)
    (pos : list value) (kw : gmap string value) : M value :=
  match metaclass_of c with
  | mc_EnumMeta => lift (RelationshipType_call pos kw)
  | _ =>
      match abstractmethods c with
      | _ :: _ => raise TypeError
      | [] =>
          match resolve c "__init__" with
          | Some (k, _) =>
              match function_of k "__init__" with
              | Some init =>
                  self ← alloc (OInstance c ∅);
                  init self pos kw;;
                  mret (VRef self)
              | None => raise AttributeError
              end
          | None =>
              if decide (pos = [] ∧ kw = ∅) then
                self ← alloc (OInstance c ∅);
                mret (VRef self)
              else raise TypeError
          end
      end
  end.

(** [o.name(...)] for an instance [o] and a name that the instance's
    dictionary or a class body of the module binds.  An attribute of the
    instance shadows the function of the class; of the values of the
    model only a class can be called.  The names that only [object]
    binds ([__class__], [__eq__], ...) are outside the model. *)
Definition call_method (o : value) (name : string)
    (pos : list value) (kw : gmap string value) : M value := λ h,
  match o with
  | VRef self =>
      match h !! self with
      | Some (OInstance c d) =>
          match d !! name with
          | Some (VClass k) => construct k pos kw h
          | Some _ => (inl TypeError, h)
          | None =>
              match resolve c name with
              | Some (k, _) =>
                  match function_of k name with
                  | Some f => f self pos kw h
                  | None => (inl AttributeError, h)
                  end
              | None => (inl AttributeError, h)
              end
          end
      | _ => (inl AttributeError, h)
      end
  | _ => (inl AttributeError, h)
  end.

End Module_document.

(** The signature of the [__init__] that constructing a [c] runs: every
    class that has one defines its own. *)
Definition init_signature (G : defaults) (c : ClassName) : signature :=
  match c with
  | cIntegrityMethod => []
  | cHash => Hash_params
  | cExternalReference => ExternalReference_params
  | cSpdxDocumentReference => SpdxDocumentReference_params
  | cSpdxElement => SpdxElement_params
  | cRelationshipType => []
  | cRelationship => Relationship_params
  | cIdentity => Identity_params
  | cSpdxDocument => SpdxDocument_params G
  | cArtifact => Artifact_params G
  | cPackage => Package_params G
  | cFile => File_params G
  | cSnippet => Snippet_params G
  end.

(** The assignments [self.A = p] of a parameter [p] to an attribute [A]
    that constructing a [c] runs, through [super().__init__] included. *)
Definition SpdxElement_assignments : list (string * string) :=
  [("name", "Name"); ("summary", "Summary"); ("description", "Description");
   ("comment", "Comment"); ("verification", "VerifiedWith")].

Definition Artifact_assignments : list (string * string) :=
  SpdxElement_assignments ++
  [("artifact_url", "ArtifactUrl"); ("supplier", "Supplier");
   ("originator", "Originator"); ("external_references", "ExternalReferences")].

Definition assignments (c : ClassName) : list (string * string) :=
  match c with
  | cIntegrityMethod => []
  | cHash => [("algo", "HashAlgorithm"); ("value", "Value")]
  | cExternalReference =>
      [("category", "Category"); ("reftype", "Type"); ("locator", "Locator");
       ("comment", "Comment")]
  | cSpdxDocumentReference =>
      [("document_ref", "DocumentRef"); ("locator", "Locator");
       ("verification", "VerifiedWith")]
  | cSpdxElement => SpdxElement_assignments
  | cRelationshipType => []
  | cRelationship =>
      SpdxElement_assignments ++
      [("relationship_type", "RelationshipType"); ("from_element", "From");
       ("to_element", "To"); ("verification", "VerfiedWith")]
  | cIdentity => SpdxElement_assignments ++ [("email", "Email")]
  | cSpdxDocument =>
      SpdxElement_assignments ++
      [("namespace", "Namespace"); ("created", "Created");
       ("creator", "Creator");
       ("external_document_references", "ExternalDocumentReferences");
       ("profiles", "Profiles")]
  | cArtifact => Artifact_assignments
  | cPackage => Artifact_assignments ++ [("version", "Version")]
  | cFile => Artifact_assignments ++ [("file_type", "FileType")]
  | cSnippet =>
      Artifact_assignments ++
      [("byte_range", "ByteRange"); ("line_range", "LineRange")]
  end.

(** The assignments [self.A = literal]. *)
Definition literal_assignments (c : ClassName) : list (string * value) :=
  match c with
  | cSpdxElement | cRelationship | cIdentity | cArtifact | cPackage | cFile
  | cSnippet => [("SPDXID", VStr "")]
  | cSpdxDocument =>
      [("SPDXID", VStr ""); ("SPDXVersion", VFloat float_3_0);
       ("DataLicense", VFloat float_3_0)]
  | _ => []
  end.

(** The attributes an instance of [c] has once constructed. *)
Definition attributes (c : ClassName) : list string :=
  (literal_assignments c).*1 ++ (assignments c).*2.

(** ** Vocabulary of the statements *)

(** A call that Python accepts for a signature. *)
Definition wf_call (ps : signature) (pos : list value)
    (kw : gmap string value) : Prop :=
  (length pos ≤ length ps)%nat ∧
  dom kw ⊆ list_to_set ps.*1 ∧
  Forall (λ n, kw !! n = None) (take (length pos) ps.*1).

#[global] Instance wf_call_dec ps pos kw : Decision (wf_call ps pos kw).
Proof. unfold wf_call. apply _. Defined.

(** The local variables of a body after an accepted call. *)
Definition bound (ps : signature) (pos : list value)
    (kw : gmap string value) : gmap string value :=
  list_to_map (imap (bind_one pos kw) ps).

(** The call gives parameter [p] the value [v], by position or by keyword. *)
Definition supplied (ps : signature) (pos : list value)
    (kw : gmap string value) (p : string) (v : value) : Prop :=
  (∃ i dflt, ps !! i = Some (p, dflt) ∧ pos !! i = Some v) ∨ kw !! p = Some v.

(** A class that [object.__new__] agrees to instantiate. *)
Definition instantiable (c : ClassName) : Prop :=
  metaclass_of c ≠ mc_EnumMeta ∧ abstractmethods c = [].

#[global] Instance metaclass_eq_dec : EqDecision metaclass.
Proof. solve_decision. Defined.

#[global] Instance instantiable_dec c : Decision (instantiable c).
Proof. unfold instantiable. apply _. Defined.

(** The heap right after the module was executed, and the defaults its
    functions keep. *)
Definition loaded_heap : heap := snd (exec_module []).

Definition loaded_defaults : defaults :=
  match fst (exec_module []) with
  | inr G => G
  | inl _ => Build_defaults 0%nat 0%nat 0%nat 0%nat 0%nat 0%nat
  end.

(** The six default lists are as the module left them. *)
Definition defaults_intact (G : defaults) (h : heap) : Prop :=
  h !! SpdxDocument_external_document_references G
    = Some (OList [VClass cSpdxDocumentReference]) ∧
  h !! SpdxDocument_profiles G = Some (OList []) ∧
  h !! Artifact_external_references G = Some (OList [VClass cExternalReference]) ∧
  h !! Package_external_references G = Some (OList [VClass cExternalReference]) ∧
  h !! File_external_references G = Some (OList [VClass cExternalReference]) ∧
  h !! Snippet_external_references G = Some (OList [VClass cExternalReference]).

Definition default_lists (G : defaults) : list loc :=
  [SpdxDocument_external_document_references G; SpdxDocument_profiles G;
   Artifact_external_references G; Package_external_references G;
   File_external_references G; Snippet_external_references G].

(** The defaults the specification calls sensible. *)
Definition sensible_default (v : value) : Prop :=
  v = VStr "" ∨ v = VInt 0 ∨ v = VNone.

(** The defaults the signatures declare. *)
Definition declared_default (G : defaults) (v : value) : Prop :=
  v = VStr "" ∨ v = VInt 0 ∨ (∃ k, v = VClass k) ∨
  (∃ l, v = VRef l ∧ l ∈ default_lists G).

(** An instance of a class below [IntegrityMethod] that has no abstract
    method left. *)
Definition concrete_IntegrityMethod (h : heap) (v : value) : Prop :=
  ∃ c, class_of h v = Some c ∧ cIntegrityMethod ∈ mro c ∧ abstractmethods c = [].

(** An instance of Hash with the attributes [Hash.__init__] gives it,
    whatever their values. *)
Definition Hash_instance (h : heap) (o : value) : Prop :=
  ∃ l d, o = VRef l ∧ h !! l = Some (OInstance cHash d) ∧
         dom d = list_to_set (attributes cHash).

(** The vocabulary of relationship kinds, as the specification lists it. *)
Definition relationship_kinds : list string :=
  ["DESCRIBES"; "DESCRIBED_BY"; "CONTAINS"; "CONTAINED_BY"; "DEPENDS_ON";
   "DEPENDENCY_OF"; "DEPENDENCY_MANIFEST_OF"; "BUILD_DEPENDENCY_OF";
   "DEV_DEPENDENCY_OF"; "OPTIONAL_DEPENDENCY_OF"; "PROVIDED_DEPENDENCY_OF";
   "TEST_DEPENDENCY_OF"; "RUNTIME_DEPENDENCY_OF"; "EXAMPLE_OF"; "GENERATES";
   "GENERATED_FROM"].

(** Programs the examples of the specification run, from an empty heap. *)
Definition Package_with_version : M (list value) :=
  G ← exec_module;
  p ← construct G cPackage [] {["version" := VStr "1.2.3"]};
  er ← getattr p "ExternalReferences";
  items_of er.

Definition SpdxElement_no_arguments : M value :=
  G ← exec_module;
  e ← construct G cSpdxElement [] ∅;
  getattr e "VerifiedWith".

Definition SpdxDocumentReference_no_arguments : M value :=
  G ← exec_module;
  r ← construct G cSpdxDocumentReference [] ∅;
  getattr r "VerifiedWith".

Definition Relationship_no_arguments : M value :=
  G ← exec_module;
  r ← construct G cRelationship [] ∅;
  getattr r "RelationshipType".

Definition two_Artifacts : M (value * value * value * value) :=
  G ← exec_module;
  a1 ← construct G cArtifact [] ∅;
  a2 ← construct G cArtifact [] ∅;
  er1 ← getattr a1 "ExternalReferences";
  er2 ← getattr a2 "ExternalReferences";
  mret (a1, a2, er1, er2).

(** A Hash constructed as the specification's example, in the module's
    heap: the state after the call and the address of the instance. *)
Definition Hash_example : (exn + value) * heap :=
  construct loaded_defaults cHash []
    (<["algo" := VStr "SHA256"]> {["value" := VStr "abc123"]}) loaded_heap.

Definition Hash_example_heap : heap := snd Hash_example.

Definition Hash_example_instance : value := VRef (length loaded_heap).

(** ** Client programs *)

(** A list display [[v1, ..., vn]]: a new list object. *)
Definition list_display (vs : list value) : M value :=
  l ← alloc (OList vs);
  mret (VRef l).

(** A document that names its creator and two references to other
    documents, each with its [documentRef], [locator] and [verifiedWith]. *)
Definition SpdxDocument_with_two_references (G : defaults)
    (creator d1 l1 v1 d2 l2 v2 : value) : M (value * value * value * value) :=
  r1 ← construct G cSpdxDocumentReference [d1; l1; v1] ∅;
  r2 ← construct G cSpdxDocumentReference [d2; l2; v2] ∅;
  refs ← list_display [r1; r2];
  doc ← construct G cSpdxDocument []
          (<["creator" := creator]> {["external_document_references" := refs]});
  mret (doc, refs, r1, r2).

(** A series of constructor calls, whatever each one answers. *)
Definition construct_all (G : defaults)
    (calls : list (ClassName * list value * gmap string value))
    (h : heap) : heap :=
  foldl (λ h' call, snd (construct G (fst (fst call)) (snd (fst call))
                           (snd call) h')) h calls.

(** The keyword form of a positional call: each value under the name of
    the parameter at its position. *)
Definition keywords_of (ps : signature) (pos : list value)
  : gmap string value :=
  list_to_map (zip (take (length pos) ps.*1) pos).

(** * Properties *)

Ltac by_evaluation := apply (bool_decide_unpack _); vm_compute; exact I.

(** ** Running computations *)

Lemma bind_run {A B} (m : M A) (f : A → M B) (h h' : heap) (a : A) :
  m h = (inr a, h') → (m ≫= f) h = f a h'.
Proof. intros E. unfold mbind, M_bind. by rewrite E. Qed.

Lemma bind_raise {A B} (m : M A) (f : A → M B) (h h' : heap) (e : exn) :
  m h = (inl e, h') → (m ≫= f) h = (inl e, h').
Proof. intros E. unfold mbind, M_bind. by rewrite E. Qed.

Lemma bind_assoc_run {A B C} (m : M A) (g : A → M B) (f : B → M C) (h : heap) :
  ((m ≫= g) ≫= f) h = (m ≫= λ x, g x ≫= f) h.
Proof. unfold mbind, M_bind. by destruct (m h) as [[e|a] h']. Qed.

Lemma ret_bind_run {A B} (a : A) (f : A → M B) (h : heap) :
  (mret a ≫= f) h = f a h.
Proof. reflexivity. Qed.

Lemma lift_ok_bind {A B} (a : A) (f : A → M B) (h : heap) :
  (lift (inr a) ≫= f) h = f a h.
Proof. reflexivity. Qed.

Lemma lift_raise_bind {A B} (e : exn) (f : A → M B) (h : heap) :
  (lift (inl e) ≫= f) h = (inl e, h).
Proof. reflexivity. Qed.

Lemma alloc_bind_run {B} (o : object) (f : loc → M B) (h : heap) :
  (alloc o ≫= f) h = f (length h) (h ++ [o]).
Proof. reflexivity. Qed.

(** Assigning an attribute of the object allocated last. *)
Lemma setattr_last (h : heap) c d k v :
  setattr (length h) k v (h ++ [OInstance c d])
  = (inr (), h ++ [OInstance c (<[k:=v]> d)]).
Proof.
  unfold setattr. rewrite lookup_app_r by lia. rewrite Nat.sub_diag. simpl.
  f_equal. rewrite insert_app_r_alt by lia. by rewrite Nat.sub_diag.
Qed.

Lemma setattr_bind_last {B} (f : unit → M B) (h : heap) c d k v :
  (setattr (length h) k v ≫= f) (h ++ [OInstance c d])
  = f () (h ++ [OInstance c (<[k:=v]> d)]).
Proof. apply bind_run, setattr_last. Qed.

Lemma getattr_last (h : heap) c (d : gmap string value) a v :
  d !! a = Some v →
  getattr (VRef (length h)) a (h ++ [OInstance c d])
  = (inr v, h ++ [OInstance c d]).
Proof.
  intros E. unfold getattr. rewrite lookup_app_r by lia.
  rewrite Nat.sub_diag. simpl. by rewrite E.
Qed.

Lemma getattr_mono (h h' : heap) o a v :
  (∀ l x, h !! l = Some x → h' !! l = Some x) →
  getattr o a h = (inr v, h) → getattr o a h' = (inr v, h').
Proof.
  intros Hframe. unfold getattr. destruct o as [| | | | | |l]; try done.
  destruct (h !! l) as [[?|c d]|] eqn:E; try done.
  rewrite (Hframe _ _ E). destruct (d !! a); [|done]. by intros [= ->].
Qed.

(** ** Binding arguments *)

Lemma bind_args_wf ps pos kw :
  wf_call ps pos kw → bind_args ps pos kw = inr (bound ps pos kw).
Proof.
  intros (H1 & H2 & H3). unfold bind_args.
  rewrite decide_False by lia. rewrite decide_True by done.
  by rewrite decide_True.
Qed.

Lemma bind_args_not_wf ps pos kw :
  ¬ wf_call ps pos kw → bind_args ps pos kw = inl TypeError.
Proof.
  intros H. unfold bind_args. repeat case_decide; try done.
  exfalso. apply H. split; [lia | done].
Qed.

Lemma wf_call_positional (ps : signature) (pos : list value) :
  (length pos ≤ length ps)%nat → wf_call ps pos ∅.
Proof.
  intros. split; [done|]. split; [set_solver|].
  apply Forall_forall. intros. apply lookup_empty.
Qed.

Lemma bound_names ps pos kw : (imap (bind_one pos kw) ps).*1 = ps.*1.
Proof.
  apply list_eq. intros i.
  rewrite !list_lookup_fmap, list_lookup_imap.
  by destruct (ps !! i) as [[p d]|].
Qed.

(** A parameter holds the positional value if there is one, else the
    keyword value if there is one, else its default. *)
Lemma arg_bound ps pos kw i p dflt :
  NoDup ps.*1 → ps !! i = Some (p, dflt) →
  arg (bound ps pos kw) p =
    match pos !! i with
    | Some v => v
    | None => default dflt (kw !! p)
    end.
Proof.
  intros Hnd Hi. unfold arg, bound.
  erewrite elem_of_list_to_map_1; [reflexivity | by rewrite bound_names |].
  apply list_elem_of_lookup. exists i.
  rewrite list_lookup_imap, Hi. reflexivity.
Qed.

Lemma arg_supplied ps pos kw p v :
  NoDup ps.*1 → wf_call ps pos kw → supplied ps pos kw p v →
  arg (bound ps pos kw) p = v.
Proof.
  intros Hnd (Hlen & Hdom & Hpos) [(i & dflt & Hi & Hv) | Hk].
  - rewrite (arg_bound _ _ _ i p dflt) by done. by rewrite Hv.
  - assert (p ∈ ps.*1) as Hin.
    { apply (elem_of_list_to_set (C := gset string)), Hdom, elem_of_dom. eauto. }
    apply list_elem_of_lookup in Hin as [i Hi].
    rewrite list_lookup_fmap in Hi.
    destruct (ps !! i) as [[p' dflt]|] eqn:Ei; simplify_eq/=.
    rewrite (arg_bound _ _ _ i _ dflt Hnd Ei).
    destruct (pos !! i) as [w|] eqn:Ew; [|by rewrite Hk].
    apply lookup_lt_Some in Ew.
    rewrite Forall_forall in Hpos.
    rewrite Hpos in Hk; [done|].
    apply list_elem_of_lookup. exists i.
    rewrite lookup_take_lt by done. by rewrite list_lookup_fmap, Ei.
Qed.

Lemma arg_omitted ps pos kw i p dflt :
  NoDup ps.*1 → ps !! i = Some (p, dflt) → pos !! i = None → kw !! p = None →
  arg (bound ps pos kw) p = dflt.
Proof.
  intros Hnd Hi Hp Hk. rewrite (arg_bound _ _ _ i p dflt) by done.
  by rewrite Hp, Hk.
Qed.

Lemma init_signature_NoDup G c : NoDup (init_signature G c).*1.
Proof. destruct c; apply (bool_decide_unpack _); vm_compute; exact I. Qed.

(** ** Running a constructor *)

Ltac run_step :=
  first
    [ rewrite bind_assoc_run
    | rewrite lift_ok_bind
    | rewrite alloc_bind_run
    | rewrite setattr_bind_last
    | rewrite ret_bind_run ];
  cbv beta.

(** A parameter bound by position, read back. *)
Ltac read_positional :=
  repeat match goal with
         | |- context [arg (bound ?ps ?l ∅) ?s] =>
             let t := eval vm_compute in (arg (bound ps l ∅) s) in
             change (arg (bound ps l ∅) s) with t
         end.

Ltac run_body :=
  repeat first
    [ rewrite bind_args_wf
        by (assumption || (apply wf_call_positional; simpl; lia))
    | run_step ].

(** [SpdxElement.__init__] and [Artifact.__init__] as [super()] calls
    them: every parameter by position, on the object under construction. *)
Lemma SpdxElement__init__positional (h : heap) c d v1 v2 v3 v4 v5 :
  SpdxElement__init__ (length h) [v1; v2; v3; v4; v5] ∅
    (h ++ [OInstance c d])
  = (inr VNone,
     h ++ [OInstance c
             (<["VerifiedWith":=v5]> (<["Comment":=v4]>
               (<["Description":=v3]> (<["Summary":=v2]>
                 (<["Name":=v1]> (<["SPDXID":=VStr ""]> d))))))]).
Proof.
  unfold SpdxElement__init__. run_body. read_positional. reflexivity.
Qed.

Lemma Artifact__init__positional G (h : heap) c d v1 v2 v3 v4 v5 v6 v7 v8 v9 :
  Artifact__init__ G (length h) [v1; v2; v3; v4; v5; v6; v7; v8; v9] ∅
    (h ++ [OInstance c d])
  = (inr VNone,
     h ++ [OInstance c
             (<["ExternalReferences":=v9]> (<["Originator":=v8]>
               (<["Supplier":=v7]> (<["ArtifactUrl":=v6]>
                 (<["VerifiedWith":=v5]> (<["Comment":=v4]>
                   (<["Description":=v3]> (<["Summary":=v2]>
                     (<["Name":=v1]> (<["SPDXID":=VStr ""]> d))))))))))]).
Proof.
  unfold Artifact__init__, super_SpdxElement__init__. run_body.
  rewrite (bind_run _ _ _ _ _ (SpdxElement__init__positional _ _ _ _ _ _ _ _)).
  run_body. read_positional. reflexivity.
Qed.

Ltac run_super :=
  match goal with
  | |- context [SpdxElement__init__ _ _ ∅ ≫= _] =>
      rewrite (bind_run _ _ _ _ _
                 (SpdxElement__init__positional _ _ _ _ _ _ _ _))
  | |- context [Artifact__init__ _ _ _ ∅ ≫= _] =>
      rewrite (bind_run _ _ _ _ _
                 (Artifact__init__positional _ _ _ _ _ _ _ _ _ _ _ _ _))
  end.

Ltac run_init :=
  repeat first
    [ rewrite bind_args_wf by assumption
    | run_step
    | run_super ].

(** The call of an instantiable class, reduced to allocation followed by
    the class's own [__init__]. *)
Ltac enter_construct :=
  match goal with
  | |- context [construct ?G ?c ?pos ?kw ?h] =>
      let f := eval cbn in (function_of G c "__init__") in
      match f with
      | Some ?init =>
          change (construct G c pos kw h)
            with ((alloc (OInstance c ∅) ≫= λ self,
                   init self pos kw ≫= λ _, mret (VRef self)) h);
          let hd := eval cbv beta in init in
          match hd with
          | ?k _ => unfold k
          | ?k => unfold k
          end;
          unfold super_Artifact__init__, super_SpdxElement__init__
      end
  end.

(** After the case analysis on the assignment, every value of the
    dictionary is a variable and the lookup computes. *)
Ltac read_dict a :=
  repeat match goal with
         | |- context [arg a ?s] =>
             let v := fresh "v" in generalize (arg a s); intros v
         end;
  vm_compute; reflexivity.

Ltac split_assignment H :=
  repeat (apply elem_of_cons in H as [H | H]; [injection H as -> -> |]);
  try (by apply elem_of_nil in H).

Ltac read_dom :=
  rewrite !dom_insert_L, dom_empty_L; by_evaluation.

Lemma construct_instantiable G c pos kw (h : heap) :
  instantiable c → wf_call (init_signature G c) pos kw →
  ∃ d, construct G c pos kw h
         = (inr (VRef (length h)), h ++ [OInstance c d]) ∧
       (∀ p a, (p, a) ∈ assignments c →
               d !! a = Some (arg (bound (init_signature G c) pos kw) p)) ∧
       (∀ a v, (a, v) ∈ literal_assignments c → d !! a = Some v) ∧
       dom d = list_to_set (attributes c).
Proof.
  intros [Hm Ha] Hwf.
  destruct c; try (by vm_compute in Ha); try (by vm_compute in Hm);
    simpl in Hwf; eexists;
    (split;
     [ enter_construct; run_init; reflexivity
     | simpl init_signature;
       match goal with
       | |- context [bound ?ps pos kw] => generalize (bound ps pos kw)
       end;
       clear Hwf; intros env; split; [|split];
       [ intros p a Hin; cbv in Hin; split_assignment Hin; read_dict env
       | intros a v Hin; cbv in Hin; split_assignment Hin; read_dict env
       | read_dom ] ]).
Qed.

Lemma construct_not_wf G c pos kw (h : heap) :
  instantiable c → ¬ wf_call (init_signature G c) pos kw →
  construct G c pos kw h = (inl TypeError, h ++ [OInstance c ∅]).
Proof.
  intros [Hm Ha] Hwf.
  destruct c; try (by vm_compute in Ha); try (by vm_compute in Hm);
    simpl in Hwf; enter_construct;
    rewrite alloc_bind_run; cbv beta;
    rewrite bind_args_not_wf by assumption;
    rewrite !bind_assoc_run; reflexivity.
Qed.

Lemma construct_success_wf G c pos kw (h h' : heap) r :
  instantiable c → construct G c pos kw h = (inr r, h') →
  wf_call (init_signature G c) pos kw.
Proof.
  intros Hc E. destruct (decide (wf_call (init_signature G c) pos kw)) as [|N];
    [done|]. by rewrite (construct_not_wf _ _ _ _ _ Hc N) in E.
Qed.

(** ** Signatures and assignments *)

Ltac split_member H :=
  repeat (apply elem_of_cons in H as [H | H]; [subst |]);
  try (by apply elem_of_nil in H).

Ltac find_member :=
  repeat first [ apply list_elem_of_here | apply list_elem_of_further ].

(** Every parameter is stored. *)
Lemma assignments_cover G c p :
  p ∈ (init_signature G c).*1 → ∃ a, (p, a) ∈ assignments c.
Proof.
  intros H. destruct c; cbv in H; split_member H;
    eexists; cbv; find_member.
Qed.

(** What the defaults of the signatures are. *)
Lemma init_signature_defaults G c i p dflt :
  init_signature G c !! i = Some (p, dflt) → declared_default G dflt.
Proof.
  intros H. apply list_elem_of_lookup_2 in H. unfold declared_default.
  destruct c; cbv [init_signature Hash_params ExternalReference_params
    SpdxDocumentReference_params SpdxElement_params Relationship_params
    Identity_params SpdxDocument_params Artifact_params Package_params
    File_params Snippet_params] in H;
    split_assignment H;
    first [ by left | by right; left | by right; right; left; eexists
          | right; right; right; eexists; split; [reflexivity|];
            unfold default_lists; find_member ].
Qed.

Lemma supplied_is_parameter ps pos kw p v :
  wf_call ps pos kw → supplied ps pos kw p v → p ∈ ps.*1.
Proof.
  intros (_ & Hdom & _) [(i & dflt & Hi & _) | Hk].
  - apply list_elem_of_lookup. exists i. by rewrite list_lookup_fmap, Hi.
  - apply (elem_of_list_to_set (C := gset string)), Hdom, elem_of_dom. eauto.
Qed.

(** ** The module's heap *)

Lemma exec_module_intact (h : heap) :
  ∃ G, exec_module h
       = (inr G,
          h ++ [OList [VClass cSpdxDocumentReference]; OList [];
                OList [VClass cExternalReference];
                OList [VClass cExternalReference];
                OList [VClass cExternalReference];
                OList [VClass cExternalReference]]) ∧
       defaults_intact G (snd (exec_module h)) ∧
       NoDup (default_lists G).
Proof.
  eexists. split.
  - unfold exec_module. repeat (rewrite alloc_bind_run; cbv beta).
    rewrite <- !app_assoc. reflexivity.
  - unfold exec_module. repeat (rewrite alloc_bind_run; cbv beta).
    simpl. rewrite <- !app_assoc. simpl. split.
    + unfold defaults_intact; simpl; rewrite !length_app; simpl.
      repeat split; rewrite lookup_app_r by lia;
        match goal with
        | |- _ !! ?n = _ => replace n with (n - 0)%nat by lia
        end.
      all: try (replace (length h - length h)%nat with 0%nat by lia; reflexivity).
      all: match goal with
           | |- _ !! ?n = _ =>
               first [ replace n with 1%nat by lia | replace n with 2%nat by lia
                     | replace n with 3%nat by lia | replace n with 4%nat by lia
                     | replace n with 5%nat by lia ]
           end; reflexivity.
    + unfold default_lists; simpl; rewrite !length_app; simpl.
      apply NoDup_ListNoDup.
      repeat (constructor; [simpl; lia|]). constructor.
Qed.

Lemma defaults_intact_grows G (h : heap) (o : object) :
  defaults_intact G h → defaults_intact G (h ++ [o]).
Proof.
  unfold defaults_intact. intros (H1 & H2 & H3 & H4 & H5 & H6).
  repeat split; by apply lookup_app_l_Some.
Qed.

Lemma defaults_intact_lists G (h : heap) l :
  defaults_intact G h → l ∈ default_lists G →
  ∃ items, h !! l = Some (OList items).
Proof.
  intros (H1 & H2 & H3 & H4 & H5 & H6) H. unfold default_lists in H.
  split_member H; eauto.
Qed.

(** ** What construction stores *)

(** Constructing an instantiable class with an accepted call succeeds;
    the new object is the last of the heap, its attributes hold the
    arguments as bound, and the objects that were there are untouched. *)
Lemma construct_reads G c pos kw (h : heap) :
  instantiable c → wf_call (init_signature G c) pos kw →
  ∃ h', construct G c pos kw h = (inr (VRef (length h)), h') ∧
        length h' = S (length h) ∧
        (∃ d, h' !! length h = Some (OInstance c d) ∧
              dom d = list_to_set (attributes c)) ∧
        (∀ l o, h !! l = Some o → h' !! l = Some o) ∧
        (∀ p a, (p, a) ∈ assignments c →
           getattr (VRef (length h)) a h'
           = (inr (arg (bound (init_signature G c) pos kw) p), h')) ∧
        (∀ a v, (a, v) ∈ literal_assignments c →
           getattr (VRef (length h)) a h' = (inr v, h')).
Proof.
  intros Hc Hwf.
  destruct (construct_instantiable G c pos kw h Hc Hwf)
    as (d & E & Hd & Hl & Hdom).
  exists (h ++ [OInstance c d]). split; [done|]. split.
  { rewrite length_app. simpl. lia. }
  split.
  { exists d. split; [|done]. rewrite lookup_app_r by lia.
    by rewrite Nat.sub_diag. }
  split.
  { intros l o Hl'. by apply lookup_app_l_Some. }
  split.
  - intros p a Hin. by apply getattr_last, Hd.
  - intros a v Hin. by apply getattr_last, Hl.
Qed.

(** C3: every value supplied at construction is read back unchanged from
    the attribute its parameter is assigned to, for every class of the
    module that can be instantiated; construction succeeds, stores every
    parameter, and leaves the objects of the heap (a list passed as an
    argument among them) as they were. *)
Theorem construction_round_trip G c pos kw (h : heap) p v :
  instantiable c →
  wf_call (init_signature G c) pos kw →
  supplied (init_signature G c) pos kw p v →
  ∃ self h',
    construct G c pos kw h = (inr (VRef self), h') ∧
    (∃ a, (p, a) ∈ assignments c) ∧
    (∀ a, (p, a) ∈ assignments c → getattr (VRef self) a h' = (inr v, h')) ∧
    (∀ l o, h !! l = Some o → h' !! l = Some o).
Proof.
  intros Hc Hwf Hs.
  destruct (construct_reads G c pos kw h Hc Hwf)
    as (h' & E & _ & _ & Hframe & Hread & _).
  exists (length h), h'. split; [done|]. split.
  { eapply assignments_cover, supplied_is_parameter; eauto. }
  split; [|done].
  intros a Hin. rewrite (Hread p a Hin).
  by rewrite (arg_supplied _ _ _ p v (init_signature_NoDup G c) Hwf Hs).
Qed.

(** C2, amended: every parameter of every constructor is optional, and an
    omitted parameter leaves its declared default in the attribute; the
    declared defaults are the empty string, zero, a class object, or one
    of the six lists the module allocated. *)
Theorem omitted_parameter_default G c pos kw (h : heap) i p dflt :
  instantiable c →
  wf_call (init_signature G c) pos kw →
  init_signature G c !! i = Some (p, dflt) →
  pos !! i = None → kw !! p = None →
  ∃ self h',
    construct G c pos kw h = (inr (VRef self), h') ∧
    (∃ a, (p, a) ∈ assignments c) ∧
    (∀ a, (p, a) ∈ assignments c → getattr (VRef self) a h' = (inr dflt, h')) ∧
    declared_default G dflt ∧ dflt ≠ VNone.
Proof.
  intros Hc Hwf Hi Hp Hk.
  destruct (construct_reads G c pos kw h Hc Hwf)
    as (h' & E & _ & _ & _ & Hread & _).
  exists (length h), h'. split; [done|]. split.
  { apply (assignments_cover G). apply list_elem_of_lookup. exists i.
    by rewrite list_lookup_fmap, Hi. }
  split.
  { intros a Hin. rewrite (Hread p a Hin).
    by rewrite (arg_omitted _ _ _ i p dflt (init_signature_NoDup G c)). }
  pose proof (init_signature_defaults G c i p dflt Hi) as Hd.
  split; [done|].
  destruct Hd as [-> | [-> | [[k ->] | (l & -> & _)]]]; discriminate.
Qed.

(** C1, amended: a Package constructed with a version and without
    external references is constructed without error, and its
    ExternalReferences attribute is the default list of
    [Package.__init__], which holds one item: the class
    ExternalReference. *)
Theorem Package_default_ExternalReferences G pos kw (h : heap) v :
  defaults_intact G h →
  wf_call (Package_params G) pos kw →
  kw !! "version" = Some v →
  pos !! 8%nat = None → kw !! "external_references" = None →
  ∃ self h',
    construct G cPackage pos kw h = (inr (VRef self), h') ∧
    getattr (VRef self) "Version" h' = (inr v, h') ∧
    getattr (VRef self) "ExternalReferences" h'
      = (inr (VRef (Package_external_references G)), h') ∧
    items_of (VRef (Package_external_references G)) h'
      = (inr [VClass cExternalReference], h').
Proof.
  intros HG Hwf Hv Hp Hk.
  assert (instantiable cPackage) as Hc by (by apply (bool_decide_unpack _)).
  destruct (construct_reads G cPackage pos kw h Hc Hwf)
    as (h' & E & _ & _ & Hframe & Hread & _).
  change (init_signature G cPackage) with (Package_params G) in Hread.
  exists (length h), h'. split; [done|]. split; [|split].
  - rewrite (Hread "version" "Version") by (cbv; find_member).
    rewrite (arg_supplied (Package_params G) pos kw "version" v); try done.
    + apply (init_signature_NoDup G cPackage).
    + by right.
  - rewrite (Hread "external_references" "ExternalReferences")
      by (cbv; find_member).
    by rewrite (arg_omitted (Package_params G) pos kw 8 "external_references"
                  (VRef (Package_external_references G))
                  (init_signature_NoDup G cPackage)).
  - destruct HG as (_ & _ & _ & H4 & _).
    apply Hframe in H4. unfold items_of. by rewrite H4.
Qed.

(** C4, amended: the VerifiedWith attribute of a SpdxDocumentReference is
    the verification argument as given: a concrete integrity method when
    the caller gave one, and the class IntegrityMethod itself, which is no
    instance of anything, when the argument is omitted. *)
Theorem SpdxDocumentReference_VerifiedWith G pos kw (h : heap) :
  wf_call SpdxDocumentReference_params pos kw →
  ∃ self h' w,
    construct G cSpdxDocumentReference pos kw h = (inr (VRef self), h') ∧
    getattr (VRef self) "VerifiedWith" h' = (inr w, h') ∧
    w = match pos !! 2%nat with
        | Some v => v
        | None => default (VClass cIntegrityMethod) (kw !! "verification")
        end ∧
    (concrete_IntegrityMethod h w → concrete_IntegrityMethod h' w) ∧
    (w = VClass cIntegrityMethod → ¬ concrete_IntegrityMethod h' w).
Proof.
  intros Hwf.
  assert (instantiable cSpdxDocumentReference) as Hc
    by (by apply (bool_decide_unpack _)).
  destruct (construct_reads G cSpdxDocumentReference pos kw h Hc Hwf)
    as (h' & E & _ & _ & Hframe & Hread & _).
  change (init_signature G cSpdxDocumentReference)
    with SpdxDocumentReference_params in Hread.
  eexists (length h), h', _. split; [done|]. split.
  { apply (Hread "verification" "VerifiedWith"). cbv; find_member. }
  split.
  { apply (arg_bound SpdxDocumentReference_params pos kw 2 "verification"
             (VClass cIntegrityMethod));
      [apply (init_signature_NoDup G cSpdxDocumentReference) | reflexivity]. }
  split.
  - intros (c & Hcl & Hm & Ha). exists c. split; [|done].
    revert Hcl. unfold class_of.
    destruct (arg _ _) as [| | | | | |l]; try done.
    destruct (h !! l) as [o|] eqn:El; [|done].
    by rewrite (Hframe _ _ El).
  - intros -> (c & Hcl & _). discriminate.
Qed.

(** C5: however a SpdxDocument was constructed, its SPDXVersion and
    DataLicense read 3.0, and the call named neither of them. *)
Theorem SpdxDocument_fixed_constants G pos kw (h h' : heap) r :
  construct G cSpdxDocument pos kw h = (inr r, h') →
  getattr r "SPDXVersion" h' = (inr (VFloat float_3_0), h') ∧
  getattr r "DataLicense" h' = (inr (VFloat float_3_0), h') ∧
  float_3_0 = binary_normalize 53 1024 3 0 false ∧
  kw !! "SPDXVersion" = None ∧ kw !! "DataLicense" = None.
Proof.
  intros E.
  assert (instantiable cSpdxDocument) as Hc by (by apply (bool_decide_unpack _)).
  pose proof (construct_success_wf G _ _ _ _ _ _ Hc E) as Hwf.
  destruct (construct_reads G cSpdxDocument pos kw h Hc Hwf)
    as (h'' & E' & _ & _ & _ & _ & Hlit).
  rewrite E in E'. injection E' as -> ->.
  split; [apply Hlit; cbv; find_member|].
  split; [apply Hlit; cbv; find_member|].
  split; [reflexivity|].
  destruct Hwf as (_ & Hdom & _).
  split; apply not_elem_of_dom; intros Hin; apply Hdom in Hin;
    apply elem_of_list_to_set in Hin; cbv in Hin; split_member Hin;
    discriminate.
Qed.

(** C10, amended: two instances of a class constructed with a list
    parameter left at its default are distinct objects whose attribute is
    one and the same list, the one allocated when the [def] was executed;
    construction allocates the instance and no list. *)
Theorem default_list_shared G c pos1 kw1 pos2 kw2 (h : heap) i p l :
  instantiable c → defaults_intact G h →
  init_signature G c !! i = Some (p, VRef l) →
  wf_call (init_signature G c) pos1 kw1 → pos1 !! i = None → kw1 !! p = None →
  wf_call (init_signature G c) pos2 kw2 → pos2 !! i = None → kw2 !! p = None →
  ∃ s1 h1 s2 h2,
    construct G c pos1 kw1 h = (inr (VRef s1), h1) ∧
    construct G c pos2 kw2 h1 = (inr (VRef s2), h2) ∧
    s1 ≠ s2 ∧
    (∃ a, (p, a) ∈ assignments c) ∧
    (∀ a, (p, a) ∈ assignments c →
       getattr (VRef s1) a h2 = (inr (VRef l), h2) ∧
       getattr (VRef s2) a h2 = (inr (VRef l), h2)) ∧
    (∃ items, h !! l = Some (OList items) ∧ h2 !! l = Some (OList items)) ∧
    length h2 = S (S (length h)).
Proof.
  intros Hc HG Hi Hwf1 Hp1 Hk1 Hwf2 Hp2 Hk2.
  destruct (construct_reads G c pos1 kw1 h Hc Hwf1)
    as (h1 & E1 & Hlen1 & _ & Hframe1 & Hread1 & _).
  destruct (construct_reads G c pos2 kw2 h1 Hc Hwf2)
    as (h2 & E2 & Hlen2 & _ & Hframe2 & Hread2 & _).
  exists (length h), h1, (length h1), h2.
  split; [done|]. split; [done|]. split; [lia|]. split.
  { apply (assignments_cover G). apply list_elem_of_lookup. exists i.
    by rewrite list_lookup_fmap, Hi. }
  split.
  { intros a Hin. split.
    - apply (getattr_mono h1); [done|]. rewrite (Hread1 p a Hin).
      by rewrite (arg_omitted _ _ _ i p (VRef l) (init_signature_NoDup G c)).
    - rewrite (Hread2 p a Hin).
      by rewrite (arg_omitted _ _ _ i p (VRef l) (init_signature_NoDup G c)). }
  split; [|lia].
  destruct (init_signature_defaults G c i p (VRef l) Hi)
    as [? | [? | [[k ?] | (l' & [= <-] & Hl)]]]; try discriminate.
  destruct (defaults_intact_lists G h l HG Hl) as [items Hitems].
  exists items. split; [done|]. by apply Hframe2, Hframe1.
Qed.

(** ** The abstract base and the methods of Hash *)

(** C6: calling the class IntegrityMethod raises TypeError, whatever the
    arguments, and allocates nothing; its two methods are abstract, and
    Hash, which defines both, has none left. *)
Theorem IntegrityMethod_not_instantiable G pos kw (h : heap) :
  construct G cIntegrityMethod pos kw h = (inl TypeError, h) ∧
  abstractmethods cIntegrityMethod = ["generate"; "verify"] ∧
  abstractmethods cHash = [].
Proof. repeat split. Qed.

Lemma Hash_constructed_instance G pos kw (h : heap) :
  wf_call Hash_params pos kw →
  ∃ self h', construct G cHash pos kw h = (inr (VRef self), h') ∧
             Hash_instance h' (VRef self).
Proof.
  intros Hwf.
  assert (instantiable cHash) as Hc by (by apply (bool_decide_unpack _)).
  destruct (construct_reads G cHash pos kw h Hc Hwf)
    as (h' & E & _ & (d & Hd & Hdom) & _).
  exists (length h), h'. split; [done|]. by exists (length h), d.
Qed.

Lemma Hash_instance_no_method (h : heap) o :
  Hash_instance h o →
  ∃ l d, o = VRef l ∧ h !! l = Some (OInstance cHash d) ∧
         d !! "generate" = None ∧ d !! "verify" = None.
Proof.
  intros (l & d & -> & Hl & Hdom). exists l, d. repeat split; try done.
  all: apply not_elem_of_dom; rewrite Hdom; by_evaluation.
Qed.

(** C8: [generate()] on any instance of Hash, whatever the values of
    its attributes, answers the empty string and changes nothing. *)
Theorem Hash_generate_placeholder G (h : heap) o :
  Hash_instance h o →
  call_method G o "generate" [] ∅ h = (inr (VStr ""), h).
Proof.
  intros Ho.
  destruct (Hash_instance_no_method h o Ho) as (l & d & -> & Hl & Hg & _).
  unfold call_method. rewrite Hl, Hg. reflexivity.
Qed.

(** C9: [verify(v)] on any instance of Hash answers [v] itself, given by
    position or by keyword, and changes nothing. *)
Theorem Hash_verify_echoes G (h : heap) o v :
  Hash_instance h o →
  call_method G o "verify" [v] ∅ h = (inr v, h) ∧
  call_method G o "verify" [] {["value" := v]} h = (inr v, h).
Proof.
  intros Ho.
  destruct (Hash_instance_no_method h o Ho) as (l & d & -> & Hl & _ & Hv).
  unfold call_method. rewrite Hl, Hv. split; vm_compute; reflexivity.
Qed.

(** ** The enumeration of relationship kinds *)

Lemma find_nothing {A} (f : A → bool) (l : list A) :
  (∀ x, In x l → f x = false) → List.find f l = None.
Proof.
  induction l as [|x l IH]; intros H; [done|]. simpl.
  rewrite (H x) by (by left). apply IH. intros y Hy. apply H. by right.
Qed.

Lemma member_name_kind (m : RelationshipType) :
  member_name m ∈ relationship_kinds.
Proof. destruct m; vm_compute; find_member. Qed.

Lemma EnumMeta_call_params_NoDup : NoDup EnumMeta_call_params.*1.
Proof. by_evaluation. Qed.

Lemma member_value_members t :
  In t RelationshipType_members → member_value (snd (fst t)) = snd t.
Proof.
  intros H. apply list_elem_of_In in H. cbv in H.
  repeat (apply elem_of_cons in H as [-> | H]; [reflexivity|]).
  by apply elem_of_nil in H.
Qed.

Lemma RelationshipType_by_value_found v m :
  RelationshipType_by_value v = inr m →
  v = VMember m ∨ eq_int v (member_value m) = true.
Proof.
  unfold RelationshipType_by_value.
  destruct (List.find _ _) as [t|] eqn:E.
  - apply find_some in E as [Hin Heq].
    rewrite <- (member_value_members t Hin) in Heq.
    destruct v; intros [= <-]; auto.
  - destruct v; intros [=]. subst. by left.
Qed.

(** A call of the enumeration that answers, answers the member found for
    the value argument, and the heap is as before. *)
Lemma RelationshipType_call_member G pos kw (h h' : heap) r :
  construct G cRelationshipType pos kw h = (inr r, h') →
  h' = h ∧
  ∃ m, r = VMember m ∧
       (match pos !! 0%nat with
        | Some v => v
        | None => default VNone (kw !! "value")
        end = VMember m ∨
        eq_int (match pos !! 0%nat with
                | Some v => v
                | None => default VNone (kw !! "value")
                end) (member_value m) = true).
Proof.
  unfold construct.
  change (metaclass_of cRelationshipType) with mc_EnumMeta. cbv beta iota.
  unfold lift, RelationshipType_call. intros [= E <-]. split; [done|].
  case_decide; [done|].
  destruct (bind_args EnumMeta_call_params pos kw) as [e|a] eqn:Eb; [done|].
  assert (a = bound EnumMeta_call_params pos kw) as ->.
  { destruct (decide (wf_call EnumMeta_call_params pos kw)) as [Hwf | Hwf].
    - rewrite (bind_args_wf _ _ _ Hwf) in Eb. by injection Eb.
    - by rewrite (bind_args_not_wf _ _ _ Hwf) in Eb. }
  case_decide; [done|].
  destruct (arg _ "names"); try (by destruct (arg _ "type")).
  rewrite (arg_bound _ _ _ 0 "value" VNone EnumMeta_call_params_NoDup eq_refl)
    in E.
  destruct (RelationshipType_by_value _) as [e|m] eqn:Ev; [done|].
  simpl in E. injection E as <-. exists m. split; [done|].
  by apply RelationshipType_by_value_found.
Qed.

(** C7, amended: the enumeration has exactly the sixteen members of the
    specification, valued 1 to 16 in that order and pairwise distinct, and
    every member is one of them; a call of the class that answers,
    answers the member that has the value given, so no other member comes
    into being, and a name or an integer outside the sixteen finds
    nothing.  A Relationship does not check its type: the attribute is the
    relationship_type argument as given, one of the sixteen when that is a
    member, and the class RelationshipType itself, which is no member,
    when the argument is omitted. *)
Theorem RelationshipType_closed_Relationship_unchecked :
  (λ t, fst (fst t)) <$> RelationshipType_members = relationship_kinds ∧
  length RelationshipType_members = 16%nat ∧
  snd <$> RelationshipType_members = seqZ 1 16 ∧
  NoDup ((λ t, snd (fst t)) <$> RelationshipType_members) ∧
  (∀ m : RelationshipType,
     m ∈ (λ t, snd (fst t)) <$> RelationshipType_members ∧
     member_name m ∈ relationship_kinds) ∧
  (∀ G pos kw (h h' : heap) r,
     construct G cRelationshipType pos kw h = (inr r, h') →
     h' = h ∧
     ∃ m, r = VMember m ∧ member_name m ∈ relationship_kinds ∧
          (match pos !! 0%nat with
           | Some v => v
           | None => default VNone (kw !! "value")
           end = VMember m ∨
           eq_int (match pos !! 0%nat with
                   | Some v => v
                   | None => default VNone (kw !! "value")
                   end) (member_value m) = true)) ∧
  (∀ n, n ∉ relationship_kinds → RelationshipType_by_name n = inl KeyError) ∧
  (∀ z, ¬ (1 ≤ z ≤ 16) → RelationshipType_by_value (VInt z) = inl ValueError) ∧
  (∀ G pos kw (h : heap),
     wf_call Relationship_params pos kw →
     ∃ self h' w,
       construct G cRelationship pos kw h = (inr (VRef self), h') ∧
       getattr (VRef self) "RelationshipType" h' = (inr w, h') ∧
       w = match pos !! 5%nat with
           | Some v => v
           | None =>
               default (VClass cRelationshipType) (kw !! "relationship_type")
           end ∧
       (∀ m, w = VMember m → member_name m ∈ relationship_kinds) ∧
       (pos !! 5%nat = None → kw !! "relationship_type" = None →
        w = VClass cRelationshipType ∧ ∀ m, w ≠ VMember m)).
Proof.
  split; [reflexivity|]. split; [reflexivity|]. split; [reflexivity|].
  split; [by_evaluation|].
  split.
  { intros m. split; [|apply member_name_kind].
    destruct m; vm_compute; find_member. }
  split.
  { intros G pos kw h h' r E.
    destruct (RelationshipType_call_member G pos kw h h' r E)
      as (-> & m & -> & Hv).
    split; [done|]. exists m. split; [done|].
    split; [apply member_name_kind | done]. }
  split.
  { intros n Hn. unfold RelationshipType_by_name.
    assert (List.find (λ t, String.eqb (fst (fst t)) n) RelationshipType_members
            = None) as ->; [|done].
    apply find_nothing. intros t Ht.
    destruct (String.eqb_spec (fst (fst t)) n) as [<-|]; [|done].
    exfalso. apply Hn.
    change relationship_kinds
      with ((λ t, fst (fst t)) <$> RelationshipType_members).
    apply list_elem_of_fmap. exists t. split; [done|].
    by apply list_elem_of_In. }
  split.
  { intros z Hz. unfold RelationshipType_by_value.
    assert (List.find (λ t, eq_int (VInt z) (snd t)) RelationshipType_members
            = None) as ->; [|done].
    apply find_nothing. intros t Ht. simpl.
    destruct (Z.eqb_spec z (snd t)) as [->|]; [|done].
    exfalso. apply Hz.
    assert (snd t ∈ seqZ 1 16) as Hin.
    { change (seqZ 1 16) with (snd <$> RelationshipType_members).
      apply list_elem_of_fmap. exists t. split; [done|].
      by apply list_elem_of_In. }
    apply elem_of_seqZ in Hin. lia. }
  intros G pos kw h Hwf.
  assert (instantiable cRelationship) as Hc by by_evaluation.
  destruct (construct_reads G cRelationship pos kw h Hc Hwf)
    as (h' & E & _ & _ & _ & Hread & _).
  change (init_signature G cRelationship) with Relationship_params in Hread.
  eexists (length h), h', _. split; [done|].
  split; [apply (Hread "relationship_type" "RelationshipType");
          cbv; find_member|].
  rewrite (arg_bound Relationship_params pos kw 5 "relationship_type"
             (VClass cRelationshipType)
             (init_signature_NoDup G cRelationship) eq_refl).
  split; [done|]. split.
  - intros m _. apply member_name_kind.
  - intros -> ->. simpl. split; [done|]. intros m. discriminate.
Qed.

(** ** The examples of the specification, run *)

Lemma loaded_defaults_intact : defaults_intact loaded_defaults loaded_heap.
Proof. repeat split. Qed.

(** The Hash of the specification's example, read back. *)
Lemma construction_round_trip_witness :
  (∃ self h',
     construct loaded_defaults cHash []
       (<["algo" := VStr "SHA256"]> {["value" := VStr "abc123"]}) loaded_heap
     = (inr (VRef self), h') ∧
     (∃ a, ("algo", a) ∈ assignments cHash) ∧
     (∀ a, ("algo", a) ∈ assignments cHash →
        getattr (VRef self) a h' = (inr (VStr "SHA256"), h')) ∧
     (∀ l o, loaded_heap !! l = Some o → h' !! l = Some o)) ∧
  (∃ self h',
     construct loaded_defaults cHash []
       (<["algo" := VStr "SHA256"]> {["value" := VStr "abc123"]}) loaded_heap
     = (inr (VRef self), h') ∧
     (∃ a, ("value", a) ∈ assignments cHash) ∧
     (∀ a, ("value", a) ∈ assignments cHash →
        getattr (VRef self) a h' = (inr (VStr "abc123"), h')) ∧
     (∀ l o, loaded_heap !! l = Some o → h' !! l = Some o)).
Proof.
  split.
  - apply (construction_round_trip loaded_defaults cHash [] _ loaded_heap
             "algo" (VStr "SHA256")).
    + by_evaluation.
    + by_evaluation.
    + right. vm_compute. reflexivity.
  - apply (construction_round_trip loaded_defaults cHash [] _ loaded_heap
             "value" (VStr "abc123")).
    + by_evaluation.
    + by_evaluation.
    + right. vm_compute. reflexivity.
Defined.

(** [SpdxElement()]: the verification parameter, omitted. *)
Lemma omitted_parameter_default_witness :
  ∃ self h',
    construct loaded_defaults cSpdxElement [] ∅ loaded_heap
    = (inr (VRef self), h') ∧
    (∃ a, ("verification", a) ∈ assignments cSpdxElement) ∧
    (∀ a, ("verification", a) ∈ assignments cSpdxElement →
       getattr (VRef self) a h' = (inr (VClass cIntegrityMethod), h')) ∧
    declared_default loaded_defaults (VClass cIntegrityMethod) ∧
    VClass cIntegrityMethod ≠ VNone.
Proof.
  apply (omitted_parameter_default loaded_defaults cSpdxElement [] ∅
           loaded_heap 4 "verification" (VClass cIntegrityMethod)).
  - by_evaluation.
  - by_evaluation.
  - reflexivity.
  - reflexivity.
  - reflexivity.
Defined.

(** [Package(version="1.2.3")] in the module's heap. *)
Lemma Package_default_ExternalReferences_witness :
  ∃ self h',
    construct loaded_defaults cPackage [] {["version" := VStr "1.2.3"]}
      loaded_heap
    = (inr (VRef self), h') ∧
    getattr (VRef self) "Version" h' = (inr (VStr "1.2.3"), h') ∧
    getattr (VRef self) "ExternalReferences" h'
      = (inr (VRef (Package_external_references loaded_defaults)), h') ∧
    items_of (VRef (Package_external_references loaded_defaults)) h'
      = (inr [VClass cExternalReference], h').
Proof.
  apply (Package_default_ExternalReferences loaded_defaults []
           {["version" := VStr "1.2.3"]} loaded_heap (VStr "1.2.3")).
  - repeat split.
  - by_evaluation.
  - vm_compute. reflexivity.
  - reflexivity.
  - vm_compute. reflexivity.
Defined.

(** [SpdxDocumentReference(verification=h)] for the Hash of the example. *)
Lemma SpdxDocumentReference_VerifiedWith_witness :
  ∃ self h' w,
    construct loaded_defaults cSpdxDocumentReference []
      {["verification" := Hash_example_instance]} Hash_example_heap
    = (inr (VRef self), h') ∧
    getattr (VRef self) "VerifiedWith" h' = (inr w, h') ∧
    w = Hash_example_instance ∧
    (concrete_IntegrityMethod Hash_example_heap w →
     concrete_IntegrityMethod h' w) ∧
    (w = VClass cIntegrityMethod → ¬ concrete_IntegrityMethod h' w).
Proof.
  destruct (SpdxDocumentReference_VerifiedWith loaded_defaults []
              {["verification" := Hash_example_instance]} Hash_example_heap)
    as (self & h' & w & E & Hg & Hw & H1 & H2).
  - by_evaluation.
  - exists self, h', w. repeat split; assumption.
Defined.

(** [SpdxDocument()] in the module's heap. *)
Lemma SpdxDocument_fixed_constants_witness :
  getattr (VRef (length loaded_heap)) "SPDXVersion"
    (snd (construct loaded_defaults cSpdxDocument [] ∅ loaded_heap))
  = (inr (VFloat float_3_0),
     snd (construct loaded_defaults cSpdxDocument [] ∅ loaded_heap)) ∧
  getattr (VRef (length loaded_heap)) "DataLicense"
    (snd (construct loaded_defaults cSpdxDocument [] ∅ loaded_heap))
  = (inr (VFloat float_3_0),
     snd (construct loaded_defaults cSpdxDocument [] ∅ loaded_heap)) ∧
  float_3_0 = binary_normalize 53 1024 3 0 false ∧
  (∅ : gmap string value) !! "SPDXVersion" = None ∧
  (∅ : gmap string value) !! "DataLicense" = None.
Proof.
  apply (SpdxDocument_fixed_constants loaded_defaults [] ∅ loaded_heap).
  vm_compute. reflexivity.
Defined.

(** The Hash of the example: [generate()] and [verify("x")]. *)
Lemma Hash_generate_placeholder_witness :
  call_method loaded_defaults Hash_example_instance "generate" [] ∅
    Hash_example_heap
  = (inr (VStr ""), Hash_example_heap).
Proof.
  apply (Hash_generate_placeholder loaded_defaults Hash_example_heap
           Hash_example_instance).
  eexists _, _. split; [reflexivity|]. split; vm_compute; reflexivity.
Defined.

Lemma Hash_verify_echoes_witness :
  call_method loaded_defaults Hash_example_instance "verify" [VStr "x"] ∅
    Hash_example_heap
  = (inr (VStr "x"), Hash_example_heap) ∧
  call_method loaded_defaults Hash_example_instance "verify" []
    {["value" := VStr "x"]} Hash_example_heap
  = (inr (VStr "x"), Hash_example_heap).
Proof.
  apply (Hash_verify_echoes loaded_defaults Hash_example_heap
           Hash_example_instance (VStr "x")).
  eexists _, _. split; [reflexivity|]. split; vm_compute; reflexivity.
Defined.

(** Two Artifacts constructed without arguments in the module's heap. *)
Lemma default_list_shared_witness :
  ∃ s1 h1 s2 h2,
    construct loaded_defaults cArtifact [] ∅ loaded_heap = (inr (VRef s1), h1) ∧
    construct loaded_defaults cArtifact [] ∅ h1 = (inr (VRef s2), h2) ∧
    s1 ≠ s2 ∧
    (∃ a, ("external_references", a) ∈ assignments cArtifact) ∧
    (∀ a, ("external_references", a) ∈ assignments cArtifact →
       getattr (VRef s1) a h2 = (inr (VRef 2%nat), h2) ∧
       getattr (VRef s2) a h2 = (inr (VRef 2%nat), h2)) ∧
    (∃ items, loaded_heap !! 2%nat = Some (OList items) ∧
              h2 !! 2%nat = Some (OList items)) ∧
    length h2 = S (S (length loaded_heap)).
Proof.
  apply (default_list_shared loaded_defaults cArtifact [] ∅ [] ∅ loaded_heap
           8 "external_references" 2).
  - by_evaluation.
  - repeat split.
  - reflexivity.
  - by_evaluation.
  - reflexivity.
  - reflexivity.
  - by_evaluation.
  - reflexivity.
  - reflexivity.
Defined.

(** ** Where the code departs from the specification *)

(** C1 as stated fails: the ExternalReferences of
    [Package(version="1.2.3")] is a list of one item. *)
Lemma Package_with_version_not_empty :
  fst (Package_with_version []) = inr [VClass cExternalReference] ∧
  fst (Package_with_version []) ≠ inr [].
Proof. split; [vm_compute; reflexivity | vm_compute; discriminate]. Qed.

(** C2 as stated fails: the VerifiedWith of [SpdxElement()] is the class
    IntegrityMethod, which is neither the empty string, nor zero, nor
    None. *)
Lemma SpdxElement_default_not_sensible :
  fst (SpdxElement_no_arguments []) = inr (VClass cIntegrityMethod) ∧
  ¬ sensible_default (VClass cIntegrityMethod).
Proof.
  split; [vm_compute; reflexivity|]. intros [H | [H | H]]; discriminate.
Qed.

(** C4 as stated fails: the VerifiedWith of [SpdxDocumentReference()] is
    the abstract class IntegrityMethod itself. *)
Lemma SpdxDocumentReference_default_abstract :
  fst (SpdxDocumentReference_no_arguments []) = inr (VClass cIntegrityMethod) ∧
  ¬ concrete_IntegrityMethod (snd (SpdxDocumentReference_no_arguments []))
      (VClass cIntegrityMethod).
Proof.
  split; [vm_compute; reflexivity|]. intros (c & Hcl & _). discriminate.
Qed.

(** C7 as stated fails: the RelationshipType of [Relationship()] is the
    class RelationshipType, which is none of the sixteen members. *)
Lemma Relationship_default_type_not_member :
  fst (Relationship_no_arguments []) = inr (VClass cRelationshipType) ∧
  ∀ m : RelationshipType, VClass cRelationshipType ≠ VMember m.
Proof. split; [vm_compute; reflexivity | discriminate]. Qed.

(** C10 as stated fails: two Artifacts constructed without arguments are
    the objects 6 and 7 of the heap, and the ExternalReferences of both is
    the object 2, the list of one item allocated by the module. *)
Lemma two_Artifacts_share_default :
  fst (two_Artifacts [])
  = inr (VRef 6%nat, VRef 7%nat, VRef 2%nat, VRef 2%nat) ∧
  snd (two_Artifacts []) !! 2%nat = Some (OList [VClass cExternalReference]).
Proof. split; vm_compute; reflexivity. Qed.

(** * Further properties of the module *)

(** ** Attributes of constructed objects *)

(** X1: Relationship assigns its verification argument twice: to
    VerifiedWith, through [SpdxElement.__init__], and to the attribute
    spelled VerfiedWith. *)
Theorem Relationship_VerfiedWith_duplicate G pos kw (h : heap) :
  wf_call Relationship_params pos kw →
  ∃ self h' w,
    construct G cRelationship pos kw h = (inr (VRef self), h') ∧
    getattr (VRef self) "VerifiedWith" h' = (inr w, h') ∧
    getattr (VRef self) "VerfiedWith" h' = (inr w, h') ∧
    w = match pos !! 4%nat with
        | Some v => v
        | None => default (VClass cIntegrityMethod) (kw !! "verification")
        end.
Proof.
  intros Hwf.
  assert (instantiable cRelationship) as Hc by by_evaluation.
  destruct (construct_reads G cRelationship pos kw h Hc Hwf)
    as (h' & E & _ & _ & _ & Hread & _).
  change (init_signature G cRelationship) with Relationship_params in Hread.
  eexists (length h), h', _. split; [done|].
  split; [apply (Hread "verification" "VerifiedWith"); cbv; find_member|].
  split; [apply (Hread "verification" "VerfiedWith"); cbv; find_member|].
  apply (arg_bound Relationship_params pos kw 4 "verification"
           (VClass cIntegrityMethod));
    [apply (init_signature_NoDup G cRelationship) | reflexivity].
Qed.

Lemma Relationship_VerfiedWith_duplicate_witness :
  ∃ self h' w,
    construct loaded_defaults cRelationship []
      {["verification" := Hash_example_instance]} Hash_example_heap
    = (inr (VRef self), h') ∧
    getattr (VRef self) "VerifiedWith" h' = (inr w, h') ∧
    getattr (VRef self) "VerfiedWith" h' = (inr w, h') ∧
    w = Hash_example_instance.
Proof.
  destruct (Relationship_VerfiedWith_duplicate loaded_defaults []
              {["verification" := Hash_example_instance]} Hash_example_heap)
    as (self & h' & w & E & H1 & H2 & Hw).
  - by_evaluation.
  - exists self, h', w. repeat split; assumption.
Defined.

(** X2: a Relationship from an element to that same element is constructed
    like any other: From and To are both the element's address, the
    relationship is a new object, and the element is left as it was. *)
Theorem Relationship_self_reference G pos kw (h : heap) l o :
  wf_call Relationship_params pos kw →
  h !! l = Some o →
  supplied Relationship_params pos kw "from_element" (VRef l) →
  supplied Relationship_params pos kw "to_element" (VRef l) →
  ∃ self h',
    construct G cRelationship pos kw h = (inr (VRef self), h') ∧
    getattr (VRef self) "From" h' = (inr (VRef l), h') ∧
    getattr (VRef self) "To" h' = (inr (VRef l), h') ∧
    self ≠ l ∧ h' !! l = Some o.
Proof.
  intros Hwf Hl Hfrom Hto.
  assert (instantiable cRelationship) as Hc by by_evaluation.
  destruct (construct_reads G cRelationship pos kw h Hc Hwf)
    as (h' & E & _ & _ & Hframe & Hread & _).
  change (init_signature G cRelationship) with Relationship_params in Hread.
  pose proof (init_signature_NoDup G cRelationship
              : NoDup Relationship_params.*1) as Hnd.
  exists (length h), h'. split; [done|]. split; [|split; [|split]].
  - rewrite (Hread "from_element" "From") by (cbv; find_member).
    by rewrite (arg_supplied _ _ _ _ _ Hnd Hwf Hfrom).
  - rewrite (Hread "to_element" "To") by (cbv; find_member).
    by rewrite (arg_supplied _ _ _ _ _ Hnd Hwf Hto).
  - apply lookup_lt_Some in Hl. lia.
  - by apply Hframe.
Qed.

Lemma Relationship_self_reference_witness :
  ∃ self h',
    construct loaded_defaults cRelationship []
      (<["from_element" := Hash_example_instance]>
         {["to_element" := Hash_example_instance]}) Hash_example_heap
    = (inr (VRef self), h') ∧
    getattr (VRef self) "From" h' = (inr (VRef 6%nat), h') ∧
    getattr (VRef self) "To" h' = (inr (VRef 6%nat), h') ∧
    self ≠ 6%nat ∧ is_Some (h' !! 6%nat).
Proof.
  destruct (Relationship_self_reference loaded_defaults []
              (<["from_element" := Hash_example_instance]>
                 {["to_element" := Hash_example_instance]})
              Hash_example_heap 6
              (default (OList []) (Hash_example_heap !! 6%nat)))
    as (self & h' & E & H1 & H2 & H3 & H4).
  - by_evaluation.
  - vm_compute. reflexivity.
  - right. vm_compute. reflexivity.
  - right. vm_compute. reflexivity.
  - exists self, h'. repeat split; try assumption. eauto.
Defined.

Lemma element_instantiable G c :
  cSpdxElement ∈ mro c →
  instantiable c ∧ ("SPDXID", VStr "") ∈ literal_assignments c ∧
  "SPDXID" ∉ (init_signature G c).*1.
Proof.
  intros H.
  destruct c;
    try (exfalso; apply (bool_decide_pack _) in H; vm_compute in H;
         exact H);
    (split; [by_evaluation|]); (split; [cbv; find_member|]);
    by_evaluation.
Qed.

(** X4: The SPDXID of every element, however it was constructed, is the
    empty string, and no call can name it: all elements carry the same
    identifier. *)
Theorem SPDXID_always_empty G c pos kw (h h' : heap) r :
  cSpdxElement ∈ mro c →
  construct G c pos kw h = (inr r, h') →
  getattr r "SPDXID" h' = (inr (VStr ""), h') ∧ kw !! "SPDXID" = None.
Proof.
  intros Hel E.
  destruct (element_instantiable G c Hel) as (Hc & Hlit & Hpar).
  pose proof (construct_success_wf G _ _ _ _ _ _ Hc E) as Hwf.
  destruct (construct_reads G c pos kw h Hc Hwf)
    as (h'' & E' & _ & _ & _ & _ & Hread).
  rewrite E in E'. injection E' as -> ->.
  split; [by apply Hread|].
  destruct Hwf as (_ & Hdom & _).
  apply not_elem_of_dom. intros Hin. apply Hpar.
  by apply (elem_of_list_to_set (C := gset string)), Hdom.
Qed.

Lemma SPDXID_always_empty_witness :
  getattr (VRef (length loaded_heap)) "SPDXID"
    (snd (construct loaded_defaults cSnippet [VStr "a snippet"] ∅ loaded_heap))
  = (inr (VStr ""),
     snd (construct loaded_defaults cSnippet [VStr "a snippet"] ∅ loaded_heap))
  ∧ (∅ : gmap string value) !! "SPDXID" = None.
Proof.
  apply (SPDXID_always_empty loaded_defaults cSnippet [VStr "a snippet"] ∅
           loaded_heap).
  - by_evaluation.
  - vm_compute. reflexivity.
Defined.

(** X5: the dictionary of a constructed instance has exactly the attributes
    its class's [__init__] chain assigns, no other. *)
Theorem instance_attributes G c pos kw (h : heap) :
  instantiable c → wf_call (init_signature G c) pos kw →
  ∃ self h' d,
    construct G c pos kw h = (inr (VRef self), h') ∧
    h' !! self = Some (OInstance c d) ∧
    ∀ a, is_Some (d !! a) ↔ a ∈ attributes c.
Proof.
  intros Hc Hwf.
  destruct (construct_reads G c pos kw h Hc Hwf)
    as (h' & E & _ & (d & Hd & Hdom) & _).
  exists (length h), h', d. split; [done|]. split; [done|].
  intros a. rewrite <- elem_of_dom, Hdom. apply elem_of_list_to_set.
Qed.

Lemma instance_attributes_witness :
  ∃ self h' d,
    construct loaded_defaults cRelationship [] ∅ loaded_heap
    = (inr (VRef self), h') ∧
    h' !! self = Some (OInstance cRelationship d) ∧
    ∀ a, is_Some (d !! a) ↔ a ∈ attributes cRelationship.
Proof.
  apply (instance_attributes loaded_defaults cRelationship [] ∅ loaded_heap).
  - by_evaluation.
  - by_evaluation.
Defined.

(** ** When construction fails *)

(** X6: constructing an instantiable class checks the shape of the call and
    nothing else: it succeeds exactly when Python can bind the arguments
    to the signature, whatever the values are, and raises TypeError
    otherwise. *)
Theorem construct_fails_iff_unbindable G c pos kw (h : heap) :
  instantiable c →
  (wf_call (init_signature G c) pos kw ↔
     fst (construct G c pos kw h) = inr (VRef (length h))) ∧
  (¬ wf_call (init_signature G c) pos kw ↔
     fst (construct G c pos kw h) = inl TypeError).
Proof.
  intros Hc.
  destruct (decide (wf_call (init_signature G c) pos kw)) as [Hwf | Hwf].
  - destruct (construct_reads G c pos kw h Hc Hwf) as (h' & E & _).
    rewrite E. simpl. split; split; done.
  - rewrite (construct_not_wf G c pos kw h Hc Hwf). simpl.
    split; split; done.
Qed.

Lemma construct_fails_iff_unbindable_witness :
  (wf_call Hash_params [] {["algorithm" := VStr "SHA256"]} ↔
     fst (construct loaded_defaults cHash []
            {["algorithm" := VStr "SHA256"]} loaded_heap)
     = inr (VRef (length loaded_heap))) ∧
  (¬ wf_call Hash_params [] {["algorithm" := VStr "SHA256"]} ↔
     fst (construct loaded_defaults cHash []
            {["algorithm" := VStr "SHA256"]} loaded_heap)
     = inl TypeError).
Proof.
  apply (construct_fails_iff_unbindable loaded_defaults cHash []
           {["algorithm" := VStr "SHA256"]} loaded_heap).
  by_evaluation.
Defined.

(** ** Integrity methods *)

(** X7: Hash is the one class of the module that is an IntegrityMethod with
    no abstract method left; its [generate] and [verify] are its own; and
    every Hash constructed is a concrete integrity method. *)
Theorem Hash_only_concrete_IntegrityMethod :
  (∀ c, cIntegrityMethod ∈ mro c ∧ abstractmethods c = [] ↔ c = cHash) ∧
  resolve cHash "generate" = Some (cHash, Concrete) ∧
  resolve cHash "verify" = Some (cHash, Concrete) ∧
  (∀ G pos kw (h : heap),
     wf_call Hash_params pos kw →
     ∃ self h', construct G cHash pos kw h = (inr (VRef self), h') ∧
                concrete_IntegrityMethod h' (VRef self)).
Proof.
  split.
  { intros c. split.
    - intros [Hm Ha]. destruct c; try reflexivity; try (by vm_compute in Ha);
        exfalso; apply (bool_decide_pack _) in Hm; vm_compute in Hm; exact Hm.
    - intros ->. split; [by_evaluation | reflexivity]. }
  split; [reflexivity|]. split; [reflexivity|].
  intros G pos kw h Hwf.
  assert (instantiable cHash) as Hc by by_evaluation.
  destruct (construct_reads G cHash pos kw h Hc Hwf)
    as (h' & E & _ & (d & Hd & _) & _).
  exists (length h), h'. split; [done|]. exists cHash.
  split; [by unfold class_of; rewrite Hd|].
  split; [by_evaluation | reflexivity].
Qed.

Lemma wf_call_no_parameters pos kw :
  wf_call [] pos kw ↔ pos = [] ∧ kw = ∅.
Proof.
  split.
  - intros (Hlen & Hdom & _). split.
    + destruct pos; [done | simpl in Hlen; lia].
    + apply dom_empty_iff_L. set_solver.
  - intros [-> ->]. by apply wf_call_positional.
Qed.

(** X8: [generate] takes no argument and [verify] at most the one named
    value: any other call raises TypeError; [verify()] answers the empty
    string, the default of its parameter.  None of them changes the
    heap. *)
Theorem Hash_methods_arguments G (h : heap) o pos kw :
  Hash_instance h o →
  call_method G o "generate" pos kw h
    = (if decide (pos = [] ∧ kw = ∅) then inr (VStr "") else inl TypeError, h) ∧
  call_method G o "verify" [] ∅ h = (inr (VStr ""), h) ∧
  (¬ wf_call [("value", VStr "")] pos kw →
   call_method G o "verify" pos kw h = (inl TypeError, h)).
Proof.
  intros Ho.
  destruct (Hash_instance_no_method h o Ho) as (l & d & -> & Hl & Hg & Hv).
  unfold call_method. rewrite Hl, Hg, Hv.
  change (resolve cHash "generate") with (Some (cHash, Concrete)).
  change (resolve cHash "verify") with (Some (cHash, Concrete)).
  cbv beta iota.
  change (function_of G cHash "generate") with (Some Hash_generate).
  change (function_of G cHash "verify") with (Some Hash_verify).
  cbv beta iota. unfold Hash_generate, Hash_verify.
  split; [|split].
  - case_decide as Hd.
    + apply wf_call_no_parameters in Hd.
      by rewrite bind_args_wf, lift_ok_bind.
    + rewrite <- wf_call_no_parameters in Hd.
      by rewrite bind_args_not_wf, lift_raise_bind.
  - vm_compute. reflexivity.
  - intros Hwf. by rewrite bind_args_not_wf, lift_raise_bind.
Qed.

Lemma Hash_methods_arguments_witness :
  call_method loaded_defaults Hash_example_instance "generate"
    [VStr "data"] ∅ Hash_example_heap
  = (inl TypeError, Hash_example_heap) ∧
  call_method loaded_defaults Hash_example_instance "verify" [] ∅
    Hash_example_heap
  = (inr (VStr ""), Hash_example_heap).
Proof.
  destruct (Hash_methods_arguments loaded_defaults Hash_example_heap
              Hash_example_instance [VStr "data"] ∅) as (H1 & H2 & _).
  - eexists _, _. split; [reflexivity|]. split; vm_compute; reflexivity.
  - split; assumption.
Defined.

(** ** What construction leaves alone *)

Lemma RelationshipType_call_heap G pos kw (h : heap) :
  snd (construct G cRelationshipType pos kw h) = h.
Proof.
  unfold construct.
  change (metaclass_of cRelationshipType) with mc_EnumMeta. reflexivity.
Qed.

(** A constructor call, accepted or not, appends at most one object to
    the heap. *)
Lemma construct_grows G c pos kw (h : heap) :
  ∃ t, snd (construct G c pos kw h) = h ++ t ∧ (length t ≤ 1)%nat.
Proof.
  destruct (decide (instantiable c)) as [Hc | Hc].
  - destruct (decide (wf_call (init_signature G c) pos kw)) as [Hwf | Hwf].
    + destruct (construct_instantiable G c pos kw h Hc Hwf) as (d & E & _).
      exists [OInstance c d]. by rewrite E.
    + exists [OInstance c ∅]. by rewrite (construct_not_wf G c pos kw h Hc Hwf).
  - exists []. rewrite app_nil_r. split; [|simpl; lia].
    destruct c; try (exfalso; apply Hc; by_evaluation).
    + reflexivity.
    + apply RelationshipType_call_heap.
Qed.

Lemma construct_all_grows G calls (h : heap) :
  ∃ t, construct_all G calls h = h ++ t ∧ (length t ≤ length calls)%nat.
Proof.
  revert h. induction calls as [|[[c pos] kw] calls IH]; intros h.
  - exists []. by rewrite app_nil_r.
  - destruct (construct_grows G c pos kw h) as (t1 & E1 & L1).
    destruct (IH (h ++ t1)) as (t2 & E2 & L2).
    exists (t1 ++ t2). unfold construct_all in *. simpl. rewrite E1, E2.
    rewrite app_assoc, length_app. split; [done | simpl; lia].
Qed.

(** X9: whatever constructor calls are made, with whatever arguments and
    whether they succeed or raise, the objects of the heap stay as they
    are: the heap grows by at most one object per call, every attribute
    read before reads the same after, and the default lists of the
    signatures keep their contents. *)
Theorem constructions_only_grow G calls (h : heap) :
  (∀ l o, h !! l = Some o → construct_all G calls h !! l = Some o) ∧
  (length h ≤ length (construct_all G calls h) ≤ length h + length calls)%nat ∧
  (∀ o a v, getattr o a h = (inr v, h) →
     getattr o a (construct_all G calls h)
     = (inr v, construct_all G calls h)) ∧
  (defaults_intact G h → defaults_intact G (construct_all G calls h)).
Proof.
  destruct (construct_all_grows G calls h) as (t & -> & Hlen).
  assert (∀ l o, h !! l = Some o → (h ++ t) !! l = Some o) as Hframe.
  { intros l o Hl. by apply lookup_app_l_Some. }
  split; [done|]. split; [rewrite length_app; lia|]. split.
  - intros o a v. by apply getattr_mono.
  - intros (H1 & H2 & H3 & H4 & H5 & H6).
    repeat split; by apply Hframe.
Qed.

(** ** Default lists across functions *)

Lemma default_list_index G c i p l :
  init_signature G c !! i = Some (p, VRef l) →
  ∃ k : nat,
    default_lists G !! k = Some l ∧
    (c, p, k) ∈ [(cSpdxDocument, "external_document_references", 0%nat);
                 (cSpdxDocument, "profiles", 1%nat);
                 (cArtifact, "external_references", 2%nat);
                 (cPackage, "external_references", 3%nat);
                 (cFile, "external_references", 4%nat);
                 (cSnippet, "external_references", 5%nat)].
Proof.
  intros H. apply list_elem_of_lookup_2 in H.
  destruct c; cbv [init_signature Hash_params ExternalReference_params
    SpdxDocumentReference_params SpdxElement_params Relationship_params
    Identity_params SpdxDocument_params Artifact_params Package_params
    File_params Snippet_params] in H;
    repeat (apply elem_of_cons in H as [H | H]; [simplify_eq|]);
    try (by apply elem_of_nil in H);
    eexists; (split; [|find_member]); reflexivity.
Qed.

(** X10: each list display of a signature is a list of its own: after the
    module is executed, the default lists of two different parameters
    (of one class or of two) are different objects, so instances of
    different classes do not share a default list. *)
Theorem default_lists_distinct G (h0 h : heap) c1 c2 i1 i2 p1 p2 l1 l2 :
  exec_module h0 = (inr G, h) →
  init_signature G c1 !! i1 = Some (p1, VRef l1) →
  init_signature G c2 !! i2 = Some (p2, VRef l2) →
  (c1, p1) ≠ (c2, p2) →
  l1 ≠ l2 ∧
  (∃ items, h !! l1 = Some (OList items)) ∧
  (∃ items, h !! l2 = Some (OList items)).
Proof.
  intros E H1 H2 Hne.
  destruct (exec_module_intact h0) as (G' & E' & Hint & Hnd).
  rewrite E in E'. injection E' as <- ->.
  rewrite E in Hint. simpl in Hint.
  destruct (default_list_index G c1 i1 p1 l1 H1) as (k1 & Hk1 & T1).
  destruct (default_list_index G c2 i2 p2 l2 H2) as (k2 & Hk2 & T2).
  split.
  - intros <-. apply Hne.
    pose proof (NoDup_lookup _ _ _ _ Hnd Hk1 Hk2) as <-.
    split_member T1; split_member T2; simplify_eq; done.
  - split; eapply defaults_intact_lists; try done;
      apply list_elem_of_lookup; eauto.
Qed.

Lemma default_lists_distinct_witness :
  2%nat ≠ 3%nat ∧
  (∃ items, loaded_heap !! 2%nat = Some (OList items)) ∧
  (∃ items, loaded_heap !! 3%nat = Some (OList items)).
Proof.
  apply (default_lists_distinct loaded_defaults [] loaded_heap
           cArtifact cPackage 8 8 "external_references" "external_references").
  - reflexivity.
  - reflexivity.
  - reflexivity.
  - discriminate.
Defined.

(** ** Looking members up *)

(** X11: a member is found again under its name and under its value, by the
    lookups and by calling the class; calling the class with a member
    answers that member; names and values tell the members apart. *)
Theorem RelationshipType_lookup_round_trip G (m : RelationshipType) (h : heap) :
  RelationshipType_by_name (member_name m) = inr m ∧
  RelationshipType_by_value (VInt (member_value m)) = inr m ∧
  construct G cRelationshipType [VInt (member_value m)] ∅ h
    = (inr (VMember m), h) ∧
  construct G cRelationshipType [] {["value" := VInt (member_value m)]} h
    = (inr (VMember m), h) ∧
  construct G cRelationshipType [VMember m] ∅ h = (inr (VMember m), h) ∧
  (∀ m', member_name m' = member_name m → m' = m) ∧
  (∀ m', member_value m' = member_value m → m' = m).
Proof.
  split; [by destruct m|]. split; [by destruct m|].
  split; [destruct m; vm_compute; reflexivity|].
  split; [destruct m; vm_compute; reflexivity|].
  split; [vm_compute; reflexivity|].
  split; intros m' H; destruct m, m'; try reflexivity; vm_compute in H;
    discriminate.
Qed.

(** ** Arguments by position and by keyword *)

Lemma NoDup_prefix {A} (l : list A) n : NoDup l → NoDup (take n l).
Proof.
  intros H. rewrite <- (take_drop n l) in H. by apply NoDup_app in H as [? _].
Qed.

Lemma keywords_of_lookup (ps : signature) (pos : list value) i p dflt :
  NoDup ps.*1 → ps !! i = Some (p, dflt) →
  keywords_of ps pos !! p = pos !! i.
Proof.
  intros Hnd Hi. unfold keywords_of.
  assert (ps.*1 !! i = Some p) as Hn by (by rewrite list_lookup_fmap, Hi).
  destruct (pos !! i) as [v|] eqn:Ev.
  - apply elem_of_list_to_map_1.
    + rewrite fst_zip by (rewrite length_take; lia).
      by apply NoDup_prefix.
    + apply list_elem_of_lookup. exists i.
      apply lookup_zip_Some. split; [|done].
      apply lookup_take_Some. split; [done|].
      by apply lookup_lt_Some in Ev.
  - apply not_elem_of_list_to_map_1. intros Hin.
    apply lookup_ge_None in Ev.
    rewrite fst_zip in Hin by (rewrite length_take; lia).
    apply list_elem_of_lookup in Hin as [j Hj].
    apply lookup_take_Some in Hj as [Hj Hlt].
    pose proof (NoDup_lookup _ _ _ _ Hnd Hn Hj). lia.
Qed.

Lemma keywords_of_wf (ps : signature) (pos : list value) :
  wf_call ps [] (keywords_of ps pos).
Proof.
  split; [simpl; lia|]. split; [|constructor].
  unfold keywords_of. rewrite dom_list_to_map_L.
  rewrite fst_zip by (rewrite length_take; lia).
  intros n Hn. apply elem_of_list_to_set in Hn.
  apply elem_of_list_to_set.
  apply list_elem_of_lookup in Hn as [j Hj].
  apply lookup_take_Some in Hj as [Hj _].
  apply list_elem_of_lookup. eauto.
Qed.

Lemma bound_keywords_of (ps : signature) (pos : list value) :
  NoDup ps.*1 → bound ps [] (keywords_of ps pos) = bound ps pos ∅.
Proof.
  intros Hnd. unfold bound. f_equal. apply imap_ext.
  intros i [p dflt] Hi. unfold bind_one. simpl.
  rewrite (keywords_of_lookup ps pos i p dflt Hnd Hi), lookup_empty.
  by destruct (pos !! i).
Qed.

(** Two accepted calls that bind the parameters to the same values
    construct the same object. *)
Lemma construct_same_bound G c pos1 kw1 pos2 kw2 (h : heap) :
  instantiable c →
  wf_call (init_signature G c) pos1 kw1 →
  wf_call (init_signature G c) pos2 kw2 →
  bound (init_signature G c) pos1 kw1 = bound (init_signature G c) pos2 kw2 →
  construct G c pos1 kw1 h = construct G c pos2 kw2 h.
Proof.
  intros Hc Hwf1 Hwf2 Hb.
  destruct (construct_instantiable G c pos1 kw1 h Hc Hwf1)
    as (d1 & -> & Ha1 & Hl1 & Hd1).
  destruct (construct_instantiable G c pos2 kw2 h Hc Hwf2)
    as (d2 & -> & Ha2 & Hl2 & Hd2).
  do 4 f_equal. apply map_eq. intros a.
  destruct (decide (a ∈ attributes c)) as [Hin | Hin].
  - unfold attributes in Hin. apply elem_of_app in Hin as [Hin | Hin].
    + apply list_elem_of_fmap in Hin as ([a' v] & -> & Hin). simpl.
      by rewrite (Hl1 _ _ Hin), (Hl2 _ _ Hin).
    + apply list_elem_of_fmap in Hin as ([p a'] & -> & Hin). simpl.
      by rewrite (Ha1 _ _ Hin), (Ha2 _ _ Hin), Hb.
  - assert (a ∉ dom d1) as N1 by (rewrite Hd1; by rewrite elem_of_list_to_set).
    assert (a ∉ dom d2) as N2 by (rewrite Hd2; by rewrite elem_of_list_to_set).
    apply not_elem_of_dom in N1, N2. by rewrite N1, N2.
Qed.

(** X12: passing arguments by position or under the names of the parameters at
    those positions makes no difference: the call answers the same and
    leaves the same heap. *)
Theorem positional_as_keywords G c pos (h : heap) :
  instantiable c →
  (length pos ≤ length (init_signature G c))%nat →
  construct G c [] (keywords_of (init_signature G c) pos) h
  = construct G c pos ∅ h.
Proof.
  intros Hc Hlen. apply construct_same_bound; try done.
  - apply keywords_of_wf.
  - by apply wf_call_positional.
  - apply bound_keywords_of, init_signature_NoDup.
Qed.

Lemma positional_as_keywords_witness :
  construct loaded_defaults cHash []
    (keywords_of Hash_params [VStr "SHA256"; VStr "abc123"]) loaded_heap
  = construct loaded_defaults cHash [VStr "SHA256"; VStr "abc123"] ∅
      loaded_heap.
Proof.
  apply (positional_as_keywords loaded_defaults cHash
           [VStr "SHA256"; VStr "abc123"] loaded_heap).
  - by_evaluation.
  - simpl. lia.
Defined.

(** ** A document and its references *)

Lemma SpdxDocumentReference_positional G (h : heap) d l v :
  ∃ h', construct G cSpdxDocumentReference [d; l; v] ∅ h
          = (inr (VRef (length h)), h') ∧
        length h' = S (length h) ∧
        (∀ k o, h !! k = Some o → h' !! k = Some o) ∧
        getattr (VRef (length h)) "DocumentRef" h' = (inr d, h') ∧
        getattr (VRef (length h)) "Locator" h' = (inr l, h') ∧
        getattr (VRef (length h)) "VerifiedWith" h' = (inr v, h').
Proof.
  assert (instantiable cSpdxDocumentReference) as Hc by by_evaluation.
  assert (wf_call (init_signature G cSpdxDocumentReference) [d; l; v] ∅)
    as Hwf by (apply wf_call_positional; simpl; lia).
  destruct (construct_reads G _ _ _ h Hc Hwf)
    as (h' & E & Hlen & _ & Hframe & Hread & _).
  pose proof (init_signature_NoDup G cSpdxDocumentReference) as Hnd.
  exists h'. repeat split; try done.
  - rewrite (Hread "document_ref" "DocumentRef") by (cbv; find_member).
    by rewrite (arg_bound _ _ _ 0 "document_ref" (VStr "") Hnd).
  - rewrite (Hread "locator" "Locator") by (cbv; find_member).
    by rewrite (arg_bound _ _ _ 1 "locator" (VStr "") Hnd).
  - rewrite (Hread "verification" "VerifiedWith") by (cbv; find_member).
    by rewrite (arg_bound _ _ _ 2 "verification" (VClass cIntegrityMethod) Hnd).
Qed.

(** X3: A SpdxDocument constructed with a creator and a list of two
    references keeps them all: Creator is the creator, the
    ExternalDocumentReferences attribute is the caller's list, the list
    still holds the two references in order, and each reference still
    reads its own documentRef, locator and verifiedWith. *)
Theorem SpdxDocument_keeps_references G (h : heap)
    (creator d1 l1 v1 d2 l2 v2 : value) :
  ∃ doc refs r1 r2 h',
    SpdxDocument_with_two_references G creator d1 l1 v1 d2 l2 v2 h
      = (inr (doc, refs, r1, r2), h') ∧
    getattr doc "Creator" h' = (inr creator, h') ∧
    getattr doc "ExternalDocumentReferences" h' = (inr refs, h') ∧
    items_of refs h' = (inr [r1; r2], h') ∧
    r1 ≠ r2 ∧
    getattr r1 "DocumentRef" h' = (inr d1, h') ∧
    getattr r1 "Locator" h' = (inr l1, h') ∧
    getattr r1 "VerifiedWith" h' = (inr v1, h') ∧
    getattr r2 "DocumentRef" h' = (inr d2, h') ∧
    getattr r2 "Locator" h' = (inr l2, h') ∧
    getattr r2 "VerifiedWith" h' = (inr v2, h').
Proof.
  destruct (SpdxDocumentReference_positional G h d1 l1 v1)
    as (h1 & E1 & Hlen1 & Hf1 & Hd1 & Hl1 & Hv1).
  destruct (SpdxDocumentReference_positional G h1 d2 l2 v2)
    as (h2 & E2 & Hlen2 & Hf2 & Hd2 & Hl2 & Hv2).
  set (refs := VRef (length h2)).
  set (kw := <["creator" := creator]>
               ({["external_document_references" := refs]}
                  : gmap string value)).
  assert (instantiable cSpdxDocument) as Hc by by_evaluation.
  assert (wf_call (init_signature G cSpdxDocument) [] kw) as Hwf.
  { split; [simpl; lia|]. split; [|constructor].
    unfold kw. rewrite dom_insert_L, dom_singleton_L.
    intros n Hn. apply elem_of_list_to_set.
    apply elem_of_union in Hn as [Hn | Hn]; apply elem_of_singleton in Hn;
      subst n; cbv; find_member. }
  destruct (construct_reads G cSpdxDocument [] kw
              (h2 ++ [OList [VRef (length h); VRef (length h1)]]) Hc Hwf)
    as (h4 & E4 & _ & _ & Hf4 & Hread & _).
  pose proof (init_signature_NoDup G cSpdxDocument) as Hnd.
  assert (∀ k o, h2 !! k = Some o → h4 !! k = Some o) as Hf24.
  { intros k o Hk. by apply Hf4, lookup_app_l_Some. }
  assert (∀ k o, h1 !! k = Some o → h4 !! k = Some o) as Hf14 by eauto.
  rewrite length_app in E4, Hread.
  change (length [OList [VRef (length h); VRef (length h1)]]) with 1%nat
    in E4, Hread.
  exists (VRef (length h2 + 1)), refs, (VRef (length h)), (VRef (length h1)), h4.
  split.
  { unfold SpdxDocument_with_two_references, list_display.
    rewrite (bind_run _ _ _ _ _ E1). rewrite (bind_run _ _ _ _ _ E2).
    rewrite bind_assoc_run, alloc_bind_run, ret_bind_run.
    fold refs. fold kw. by rewrite (bind_run _ _ _ _ _ E4). }
  split.
  { rewrite (Hread "creator" "Creator") by (cbv; find_member).
    rewrite (arg_supplied _ _ _ "creator" creator Hnd Hwf); [done|].
    right. apply lookup_insert_eq. }
  split.
  { rewrite (Hread "external_document_references"
               "ExternalDocumentReferences") by (cbv; find_member).
    rewrite (arg_supplied _ _ _ "external_document_references" refs Hnd Hwf);
      [done|].
    right. unfold kw. rewrite lookup_insert_ne by done.
    apply lookup_singleton_eq. }
  split.
  { unfold items_of, refs.
    rewrite (Hf4 (length h2) (OList [VRef (length h); VRef (length h1)]));
      [done|].
    rewrite lookup_app_r by lia. by rewrite Nat.sub_diag. }
  split; [intros [=]; lia|].
  repeat split.
  - by apply (getattr_mono h1).
  - by apply (getattr_mono h1).
  - by apply (getattr_mono h1).
  - by apply (getattr_mono h2).
  - by apply (getattr_mono h2).
  - by apply (getattr_mono h2).
Qed.
